(** * upipe: TS PID demultiplexer (upipe_ts_split) and DVB-CSA descrambler
      (upipe_dvbcsa_dec)

    Shallow embedding of
      - lib/upipe-ts/upipe_ts_split.c
      - lib/upipe-dvbcsa/upipe_dvbcsa_decrypt.c
    Bytes are [Z] (uint8_t values), buffers are [list Z], the PID table is a
    list indexed by PID, and every call into the pipeline framework that the
    C code makes for its effect (output, free, throw, log, cipher call) is
    recorded as an event of a trace. *)

From Stdlib Require Import ZArith List String Ascii Bool Lia.
From stdpp Require Import base list.
Import ListNotations.

Local Open Scope Z_scope.

(** ** The pipeline framework: buffers and attribute dictionaries *)

Module Upipe.

(** Modelled from the spec: [struct uref] of upipe/uref.h, which is not among
    the sources. A uref is an attribute dictionary with an optional block
    buffer; only the attributes the two pipes read are kept: the flow
    definition tag (f.def), the PID of a TS flow (t.pid, a uint64_t) and the
    bytes of the attached ubuf (NULL when absent). *)
Record uref : Type := mk_uref {
  f_def : option string;
  t_pid : option Z;
  ubuf : option (list Z)
}.

(** uref_flow_get_def: the tag, when the attribute is present. *)
Definition uref_flow_get_def (u : uref) : option string := f_def u.

(** uref_ts_flow_get_pid: the PID, when the attribute is present. *)
Definition uref_ts_flow_get_pid (u : uref) : option Z := t_pid u.

(** Modelled from the spec: uref_block_peek / uref_block_extract of
    upipe/uref_block.h. Reading [size] bytes at [offset] succeeds exactly when
    the block has that many bytes there ("Fails with a ShortBuffer condition
    if fewer than 4 bytes are available"). *)
Definition uref_block_peek (u : uref) (offset size : nat) : option (list Z) :=
  match ubuf u with
  | None => None
  | Some b =>
      if (offset + size <=? length b)%nat
      then Some (firstn size (skipn offset b))
      else None
  end.

Definition uref_block_extract (u : uref) (offset : nat) : option Z :=
  match uref_block_peek u offset 1 with
  | Some [x] => Some x
  | _ => None
  end.

(** uref_attach_ubuf: replaces the buffer of a uref. *)
Definition uref_attach_ubuf (u : uref) (b : list Z) : uref :=
  {| f_def := f_def u; t_pid := t_pid u; ubuf := Some b |}.

(** Modelled from the spec: ubase_ncmp of upipe/ubase.h, that is
    strncmp(def, prefix, strlen(prefix)) != 0: true when [def] does NOT start
    with [prefix]. *)
Definition ubase_ncmp (def pfx : string) : bool := negb (String.prefix pfx def).

(** Log levels of upipe_err / upipe_warn / upipe_notice / upipe_dbg. *)
Inductive ulog_level : Type := ULOG_DEBUG | ULOG_NOTICE | ULOG_WARNING | ULOG_ERROR.

End Upipe.

(** ** TS packet header accessors *)

Module TS.

(** Modelled from the spec: the accessors of bitstream/mpeg/ts.h (an external
    header). Section 6 of the specification gives the layout bit for bit:
    sync byte, three flag bits and a 13-bit PID over bytes 1-2, then in byte 3
    two scrambling bits, the adaptation flag (0x20), the payload flag (0x10)
    and the continuity counter. *)
Definition TS_SIZE : nat := 188.
Definition TS_HEADER_SIZE : nat := 4.

(** p_ts[i] *)
Definition at_ (p_ts : list Z) (i : nat) : Z := nth i p_ts 0.

(** ((p_ts[1] & 0x1f) << 8) | p_ts[2] *)
Definition ts_get_pid (p_ts : list Z) : Z :=
  Z.lor (Z.shiftl (Z.land (at_ p_ts 1) 0x1f) 8) (at_ p_ts 2).

(** !!(p_ts[3] & 0x10) *)
Definition ts_has_payload (p_ts : list Z) : bool :=
  negb (Z.land (at_ p_ts 3) 0x10 =? 0).

(** !!(p_ts[3] & 0x20) *)
Definition ts_has_adaptation (p_ts : list Z) : bool :=
  negb (Z.land (at_ p_ts 3) 0x20 =? 0).

(** (p_ts[3] & 0xc0) >> 6 *)
Definition ts_get_scrambling (p_ts : list Z) : Z :=
  Z.shiftr (Z.land (at_ p_ts 3) 0xc0) 6.

(** p_ts[3] &= ~0xc0; p_ts[3] |= i_scrambling << 6; each store truncates to
    uint8_t. *)
Definition ts_set_scrambling (p_ts : list Z) (i_scrambling : Z) : list Z :=
  let b := Z.land (Z.land (at_ p_ts 3) (Z.lnot 0xc0)) 0xff in
  let b := Z.land (Z.lor b (Z.shiftl i_scrambling 6)) 0xff in
  <[3%nat := b]> p_ts.

(** The adaptation_field_length byte, right after the header. *)
Definition ts_af_length (p_ts : list Z) : Z := at_ p_ts 4.

(** "the payload begins at offset 4 + 1 + length when an adaptation field is
    present, or 4 otherwise" *)
Definition payload_start (p_ts : list Z) : nat :=
  if ts_has_adaptation p_ts
  then (4 + 1 + Z.to_nat (ts_af_length p_ts))%nat
  else 4%nat.

(** A well-formed TS packet: 188 bytes, each a uint8_t, and when it carries
    both an adaptation field and a payload the adaptation_field_length is in
    the valid range 0..182 (section 6: "valid range for this core is 0-182";
    183 and more leave no room for a payload in 188 bytes). *)
Definition well_formed (p_ts : list Z) : Prop :=
  length p_ts = TS_SIZE /\
  Forall (fun b => 0 <= b < 256) p_ts /\
  (ts_has_adaptation p_ts = true -> ts_has_payload p_ts = true ->
   ts_af_length p_ts <= 182).

End TS.

(** ** The descrambling pipe: upipe_dvbcsa_decrypt.c *)

Module Dvbcsa.
Import Upipe TS.

(** The interface of libdvbcsa (dvbcsa/dvbcsa.h, the external block cipher):
    an opaque key built from a control word, and a decryption that works in
    place on a byte range, hence keeps its length. *)
Class libdvbcsa : Type := {
  dvbcsa_key_t : Type;
  dvbcsa_key_set : list Z -> dvbcsa_key_t;
  dvbcsa_decrypt : dvbcsa_key_t -> list Z -> list Z;
  dvbcsa_decrypt_length :
    forall k data, length (dvbcsa_decrypt k data) = length data
}.

(** struct ustring_dvbcsa_cw: the part of the text that was parsed as a
    control word (empty when parsing failed) and the control word. *)
Record ustring_dvbcsa_cw : Type := {
  str : string;
  value : list Z
}.

(** The interface of upipe-dvbcsa/upipe_dvbcsa_common.h, which is not among
    the sources: the PID whitelist with its membership test, and the parser
    of control words. *)
Class dvbcsa_common : Type := {
  upipe_dvbcsa_common : Type;
  upipe_dvbcsa_common_check_pid : upipe_dvbcsa_common -> Z -> bool;
  ustring_to_dvbcsa_cw : string -> ustring_dvbcsa_cw
}.

Inductive ubase_err : Type :=
  | UBASE_ERR_NONE
  | UBASE_ERR_INVALID
  | UBASE_ERR_ALLOC.

Section Pipe.
Context {L : libdvbcsa} {C : dvbcsa_common}.

(** struct upipe_dvbcsa_dec: the key (NULL when none) and the common part.
    The output helper's fields are the framework's. *)
Record upipe_dvbcsa_dec : Type := {
  key : option dvbcsa_key_t;
  common : upipe_dvbcsa_common
}.

(** What the pipe does to the outside, in program order. *)
Inductive event : Type :=
  | EvLog (level : ulog_level) (msg : string)
  | EvFree (u : uref)
  | EvDecrypt (k : dvbcsa_key_t) (data : list Z)
  | EvOutput (u : uref).

(** The allocator's answers during one call of the input handler. *)
Record alloc : Type := {
  ubuf_block_copy_ok : bool;
  ubuf_block_write_ok : bool
}.

(** The adaptation field step (lines 167-181): the new ts_header_size, or the
    events of the early return. *)
Definition adaptation_step (u : uref) (has_adaptation : bool)
    (ts_header_size : Z) : list event + Z :=
  if has_adaptation then
    match uref_block_extract u (Z.to_nat ts_header_size) with
    | None =>
        inl [EvLog ULOG_ERROR "fail to extract adaptation field length";
             EvFree u]
    | Some af_length =>
        if 183 <=? af_length then
          inl [EvLog ULOG_WARNING "invalid adaptation field received";
               EvFree u]
        else inr (ts_header_size + (af_length + 1))
    end
  else inr ts_header_size.

(** upipe_dvbcsa_dec_input. [None] is undefined behaviour: the cipher is
    handed [size - ts_header_size] bytes, which wraps around when the buffer
    is shorter than the header and adaptation field it announces. *)
Definition upipe_dvbcsa_dec_input (upipe : upipe_dvbcsa_dec) (a : alloc)
    (u : uref) : option (list event) :=
  match key upipe with
  | None => Some [EvOutput u]
  | Some k =>
    match uref_block_peek u 0 TS_HEADER_SIZE with
    | None => Some [EvLog ULOG_ERROR "fail to read ts header"; EvFree u]
    | Some ts_header =>
      let scrambling := ts_get_scrambling ts_header in
      let has_payload := ts_has_payload ts_header in
      let has_adaptation := ts_has_adaptation ts_header in
      let pid := ts_get_pid ts_header in
      if negb (scrambling =? 0x2) || negb has_payload ||
         negb (upipe_dvbcsa_common_check_pid (common upipe) pid)
      then Some [EvOutput u]
      else
        match adaptation_step u has_adaptation (Z.of_nat TS_HEADER_SIZE) with
        | inl evs => Some evs
        | inr ts_header_size =>
          if negb (ubuf_block_copy_ok a) then
            Some [EvLog ULOG_ERROR "fail to allocate buffer"; EvFree u]
          else
            match ubuf u with
            | None => None
            | Some copy =>
              if negb (ubuf_block_write_ok a) then
                Some [EvLog ULOG_ERROR "fail to write buffer";
                      EvFree (uref_attach_ubuf u copy)]
              else
                let size := Z.of_nat (length copy) in
                let ts := ts_set_scrambling copy 0 in
                if size - ts_header_size <? 0 then None
                else
                  let n := Z.to_nat ts_header_size in
                  let plain := dvbcsa_decrypt k (skipn n ts) in
                  Some [EvDecrypt k (skipn n ts);
                        EvOutput (uref_attach_ubuf u (firstn n ts ++ plain))]
            end
        end
    end
  end.

(** Whether an event forwards a packet downstream, and whether it is a call
    of the cipher. *)
Definition is_output (e : event) : bool :=
  match e with EvOutput _ => true | _ => false end.

Definition is_decrypt (e : event) : bool :=
  match e with EvDecrypt _ _ => true | _ => false end.

(** Packets are handled one after the other; the input handler writes no
    field of the pipe, so the same [upipe] handles the next one. *)
Fixpoint upipe_dvbcsa_dec_inputs (upipe : upipe_dvbcsa_dec)
    (l : list (alloc * uref)) : option (list event) :=
  match l with
  | [] => Some []
  | (a, u) :: l' =>
      match upipe_dvbcsa_dec_input upipe a u with
      | None => None
      | Some evs =>
          match upipe_dvbcsa_dec_inputs upipe l' with
          | None => None
          | Some evs' => Some (evs ++ evs')
          end
      end
  end.

(** The test of line 239 that rejects a text:
    ustring_is_empty(cw.str) || strlen(key) != cw.str.len *)
Definition set_key_rejects (text : string) : bool :=
  let cw := ustring_to_dvbcsa_cw text in
  (String.length (str cw) =? 0)%nat ||
  negb (String.length text =? String.length (str cw))%nat.

(** upipe_dvbcsa_dec_set_key. [text] is the C string, [None] for NULL;
    [key_alloc_ok] is the answer of dvbcsa_key_alloc. *)
Definition upipe_dvbcsa_dec_set_key (upipe : upipe_dvbcsa_dec)
    (key_alloc_ok : bool) (text : option string)
    : ubase_err * upipe_dvbcsa_dec * list event :=
  (* dvbcsa_key_free(key); key = NULL; *)
  let upipe := {| key := None; common := common upipe |} in
  match text with
  | None => (UBASE_ERR_NONE, upipe, [])
  | Some text =>
      let cw := ustring_to_dvbcsa_cw text in
      if set_key_rejects text
      then (UBASE_ERR_INVALID, upipe, [])
      else if negb key_alloc_ok
      then (UBASE_ERR_ALLOC, upipe, [EvLog ULOG_NOTICE "key changed"])
      else (UBASE_ERR_NONE,
            {| key := Some (dvbcsa_key_set (value cw));
               common := common upipe |},
            [EvLog ULOG_NOTICE "key changed"])
  end.

End Pipe.

(** Modelled from the spec: the control-word parser ustring_to_dvbcsa_cw of
    upipe_dvbcsa_common.h, which is not among the sources. "Setting from text
    requires the text to decode to exactly the control-word length (16 hex
    characters / 8 bytes)": the parser consumes the first 16 characters when
    they are all hexadecimal digits, and nothing otherwise. *)
Definition hex_digit (c : ascii) : option Z :=
  let n := Z.of_nat (nat_of_ascii c) in
  if (48 <=? n) && (n <=? 57) then Some (n - 48)
  else if (97 <=? n) && (n <=? 102) then Some (n - 87)
  else if (65 <=? n) && (n <=? 70) then Some (n - 55)
  else None.

Fixpoint hex_bytes (n : nat) (s : string) : option (list Z) :=
  match n with
  | O => Some []
  | S n' =>
      match s with
      | String c1 (String c2 s') =>
          match hex_digit c1, hex_digit c2, hex_bytes n' s' with
          | Some h, Some l, Some bs => Some (16 * h + l :: bs)
          | _, _, _ => None
          end
      | _ => None
      end
  end.

Definition spec_ustring_to_dvbcsa_cw (s : string) : ustring_dvbcsa_cw :=
  match hex_bytes 8 s with
  | Some bs => {| str := substring 0 16 s; value := bs |}
  | None => {| str := EmptyString; value := [] |}
  end.

End Dvbcsa.

(** ** The PID demultiplexer: upipe_ts_split.c *)

Module Split.
Import Upipe TS.

(** we only accept blocks containing exactly one TS packet *)
Definition EXPECTED_FLOW_DEF : string := "block.mpegts.".
(** maximum number of PIDs *)
Definition MAX_PIDS : Z := 8192.

(** An output subpipe is known by the address of its
    struct upipe_ts_split_output. *)
Definition handle : Type := nat.
Bind Scope nat_scope with handle.

(** Modelled from the spec: struct ulist of upipe/ulist.h, which is not among
    the sources. "each slot holds an ordered collection of Subscriber handles
    (order = registration order)": ulist_add appends, the last element is the
    one whose [next] is NULL, and the ulist_delete_foreach loop of
    upipe_ts_split_pid_unset "removes every occurrence of subscriber".
    The list of the code is the chain of the struct uchain embedded in each
    output (lines 101-103); an output has one of them, so it is at most once
    in at most one list. The list of handles stands for that chain on such
    tables only ([chains_ok] below), and ulist_add for the linking of an
    output that is in no list ([op_fresh] below). *)
Definition ulist : Type := list handle.

Definition ulist_empty (l : ulist) : bool :=
  match l with [] => true | _ => false end.

Definition ulist_add (l : ulist) (element : handle) : ulist := l ++ [element].

Definition ulist_delete_all (l : ulist) (element : handle) : ulist :=
  List.filter (fun x => negb (Nat.eqb x element)) l.

(** struct upipe_ts_split_pid *)
Record upipe_ts_split_pid : Type := {
  outputs : ulist;
  set : bool
}.

(** struct upipe_ts_split: the flag and the array of MAX_PIDS slots. *)
Record upipe_ts_split : Type := {
  flow_def_ok : bool;
  pids : list upipe_ts_split_pid
}.

(** struct upipe_ts_split_output: its own address and the stored flow
    definition (NULL when none). Its struct uchain is not a field here: it is
    the place of the handle in the list of a slot. *)
Record upipe_ts_split_output : Type := {
  self : handle;
  flow_def : option uref
}.

(** A struct upipe pointer is either the public part of the split pipe or the
    public part of one of its output subpipes. *)
Inductive upipe : Type :=
  | upipe_ts_split_to_upipe
  | upipe_ts_split_output_to_upipe (output : handle).

(** upipe_ts_split_from_upipe is container_of(upipe, struct upipe_ts_split,
    upipe): it gives the split structure only for the split pipe's own
    struct upipe. For the struct upipe of an output subpipe the computed
    address is not a struct upipe_ts_split, and using it is undefined. *)
Definition upipe_ts_split_from_upipe (p : upipe) (s : upipe_ts_split)
    : option upipe_ts_split :=
  match p with
  | upipe_ts_split_to_upipe => Some s
  | upipe_ts_split_output_to_upipe _ => None
  end.

(** Which uref pointer an output receives: the one that came in, or the
    result of the n-th uref_dup of the call (a new uref on the same bytes). *)
Inductive uref_ptr : Type :=
  | Original
  | Duplicate (n : nat).

Inductive event : Type :=
  | EvSetPid (pid : Z)          (* upipe_throw UPROBE_TS_SPLIT_SET_PID *)
  | EvUnsetPid (pid : Z)        (* upipe_throw UPROBE_TS_SPLIT_UNSET_PID *)
  | EvAError                    (* upipe_throw_aerror *)
  | EvFlowDefError              (* upipe_throw_flow_def_error *)
  | EvFree (u : uref)           (* uref_free *)
  | EvOutput (output : handle) (p : uref_ptr) (u : uref).
                                (* upipe_ts_split_output_output *)

(** upipe_ts_split_alloc *)
Definition upipe_ts_split_alloc : upipe_ts_split :=
  {| flow_def_ok := false;
     pids := replicate (Z.to_nat MAX_PIDS) {| outputs := []; set := false |} |}.

(** pids[pid], and the stores to pids[pid].outputs and pids[pid].set *)
Definition pid_slot (s : upipe_ts_split) (pid : Z) : option upipe_ts_split_pid :=
  pids s !! Z.to_nat pid.

Definition store_slot (s : upipe_ts_split) (pid : Z) (p : upipe_ts_split_pid)
    : upipe_ts_split :=
  {| flow_def_ok := flow_def_ok s; pids := <[Z.to_nat pid := p]> (pids s) |}.

(** assert(pid < MAX_PIDS) on a uint16_t *)
Definition assert_pid (pid : Z) : bool := (0 <=? pid) && (pid <? MAX_PIDS).

(** upipe_ts_split_pid_check. [None]: the assertion fails, or [upipe] is not
    the split pipe. *)
Definition upipe_ts_split_pid_check (upipe : upipe) (s : upipe_ts_split)
    (pid : Z) : option (upipe_ts_split * list event) :=
  if negb (assert_pid pid) then None else
  match upipe_ts_split_from_upipe upipe s with
  | None => None
  | Some s =>
    match pid_slot s pid with
    | None => None
    | Some p =>
      if negb (ulist_empty (outputs p)) then
        if negb (set p) then
          Some (store_slot s pid {| outputs := outputs p; set := true |},
                [EvSetPid pid])
        else Some (s, [])
      else
        if set p then
          Some (store_slot s pid {| outputs := outputs p; set := false |},
                [EvUnsetPid pid])
        else Some (s, [])
    end
  end.

(** upipe_ts_split_pid_set *)
Definition upipe_ts_split_pid_set (upipe : upipe) (s : upipe_ts_split)
    (pid : Z) (output : handle) : option (upipe_ts_split * list event) :=
  if negb (assert_pid pid) then None else
  match upipe_ts_split_from_upipe upipe s with
  | None => None
  | Some s =>
    match pid_slot s pid with
    | None => None
    | Some p =>
      let s := store_slot s pid
                 {| outputs := ulist_add (outputs p) output; set := set p |} in
      upipe_ts_split_pid_check upipe s pid
    end
  end.

(** upipe_ts_split_pid_unset *)
Definition upipe_ts_split_pid_unset (upipe : upipe) (s : upipe_ts_split)
    (pid : Z) (output : handle) : option (upipe_ts_split * list event) :=
  if negb (assert_pid pid) then None else
  match upipe_ts_split_from_upipe upipe s with
  | None => None
  | Some s =>
    match pid_slot s pid with
    | None => None
    | Some p =>
      let s := store_slot s pid
                 {| outputs := ulist_delete_all (outputs p) output;
                    set := set p |} in
      upipe_ts_split_pid_check upipe s pid
    end
  end.

(** upipe_ts_split_output_set_flow_def, called on the output subpipe [o];
    [dup_ok] is the answer of uref_dup. The PID is a uint64_t that the calls
    of upipe_ts_split_pid_unset and upipe_ts_split_pid_set convert to
    uint16_t. The first call (line 189) is made with the struct upipe of the
    output subpipe, the second (line 205) with the one of the split pipe. *)
Definition upipe_ts_split_output_set_flow_def (o : upipe_ts_split_output)
    (s : upipe_ts_split) (dup_ok : bool) (flow_def_new : uref)
    : option (bool * upipe_ts_split_output * upipe_ts_split * list event) :=
  let upipe := upipe_ts_split_output_to_upipe (self o) in
  let before :=
    match flow_def o with
    | Some old =>
        match
          match uref_ts_flow_get_pid old with
          | Some pid => upipe_ts_split_pid_unset upipe s (pid mod 65536) (self o)
          | None => Some (s, [])
          end
        with
        | None => None
        | Some (s, evs) => Some ({| self := self o; flow_def := None |}, s, evs)
        end
    | None => Some (o, s, [])
    end in
  match before with
  | None => None
  | Some (o, s, evs) =>
    match uref_ts_flow_get_pid flow_def_new with
    | None => Some (false, o, s, evs)
    | Some pid =>
      if MAX_PIDS <=? pid then Some (false, o, s, evs)
      else if negb dup_ok then Some (false, o, s, evs ++ [EvAError])
      else
        let o := {| self := self o; flow_def := Some flow_def_new |} in
        match upipe_ts_split_pid_set upipe_ts_split_to_upipe s (pid mod 65536)
                (self o) with
        | None => None
        | Some (s, evs') => Some (true, o, s, evs ++ evs')
        end
    end
  end.

(** The ulist_foreach loop of upipe_ts_split_work with what follows it.
    [dup_ok n] is the answer of the n-th uref_dup of the call. With no output
    the body never runs and the uref, still not NULL, is freed after the
    loop; the output whose [next] is NULL gets the uref itself, which ends
    the loop with uref == NULL; every other output gets a duplicate, or the
    loop is left at once when uref_dup fails. *)
Fixpoint fan_out (dup_ok : nat -> bool) (n : nat) (l : ulist) (u : uref)
    : list event :=
  match l with
  | [] => [EvFree u]
  | output :: next =>
      match next with
      | [] => [EvOutput output Original u]
      | _ :: _ =>
          if dup_ok n
          then EvOutput output (Duplicate n) u :: fan_out dup_ok (S n) next u
          else [EvFree u; EvAError]
      end
  end.

(** upipe_ts_split_work. It writes no field of the split structure. *)
Definition upipe_ts_split_work (s : upipe_ts_split) (dup_ok : nat -> bool)
    (u : uref) : option (list event) :=
  match uref_block_peek u 0 TS_HEADER_SIZE with
  | None => Some [EvAError; EvFree u]
  | Some ts_header =>
      let pid := ts_get_pid ts_header in
      match pid_slot s pid with
      | None => None
      | Some p => Some (fan_out dup_ok 0 (outputs p) u)
      end
  end.

(** upipe_ts_split_input *)
Definition upipe_ts_split_input (s : upipe_ts_split) (dup_ok : nat -> bool)
    (u : uref) : option (upipe_ts_split * list event) :=
  match uref_flow_get_def u with
  | Some def =>
      if ubase_ncmp def EXPECTED_FLOW_DEF then
        Some ({| flow_def_ok := false; pids := pids s |},
              [EvFree u; EvFlowDefError])
      else
        Some ({| flow_def_ok := true; pids := pids s |}, [EvFree u])
  | None =>
      if negb (flow_def_ok s) then Some (s, [EvFree u; EvFlowDefError])
      else
        match ubuf u with
        | None => Some (s, [EvFree u])
        | Some _ =>
            match upipe_ts_split_work s dup_ok u with
            | None => None
            | Some evs => Some (s, evs)
            end
        end
  end.

(** A run of the input handler over the urefs it is given, in order. *)
Fixpoint upipe_ts_split_inputs (s : upipe_ts_split)
    (l : list ((nat -> bool) * uref)) : option (upipe_ts_split * list event) :=
  match l with
  | [] => Some (s, [])
  | (dup_ok, u) :: l' =>
      match upipe_ts_split_input s dup_ok u with
      | None => None
      | Some (s', evs) =>
          match upipe_ts_split_inputs s' l' with
          | None => None
          | Some (s'', evs') => Some (s'', evs ++ evs')
          end
      end
  end.

(** Subscriptions and removals as the split pipe performs them: calls of
    upipe_ts_split_pid_set and upipe_ts_split_pid_unset with its own
    struct upipe. *)
Inductive pid_op : Type :=
  | Subscribe (pid : Z) (output : handle)
  | Unsubscribe (pid : Z) (output : handle).

Definition op_pid (op : pid_op) : Z :=
  match op with Subscribe pid _ | Unsubscribe pid _ => pid end.

Definition pid_op_step (s : upipe_ts_split) (op : pid_op)
    : option (upipe_ts_split * list event) :=
  match op with
  | Subscribe pid output =>
      upipe_ts_split_pid_set upipe_ts_split_to_upipe s pid output
  | Unsubscribe pid output =>
      upipe_ts_split_pid_unset upipe_ts_split_to_upipe s pid output
  end.

Fixpoint pid_ops (s : upipe_ts_split) (ops : list pid_op)
    : option (upipe_ts_split * list event) :=
  match ops with
  | [] => Some (s, [])
  | op :: ops' =>
      match pid_op_step s op with
      | None => None
      | Some (s', evs) =>
          match pid_ops s' ops' with
          | None => None
          | Some (s'', evs') => Some (s'', evs ++ evs')
          end
      end
  end.

(** The subscriber collection of a slot (empty outside the table). *)
Definition subscribers (s : upipe_ts_split) (pid : Z) : ulist :=
  match pid_slot s pid with
  | Some p => outputs p
  | None => []
  end.

(** The specification's edge-triggered rule, on the collection alone:
    "Unset->Set on first subscriber added (emits a PID-set notification);
    Set->Unset on last subscriber removed (emits PID-unset)", nothing
    otherwise. *)
Definition spec_notifications (pid : Z) (before after : ulist) : list event :=
  match before, after with
  | [], _ :: _ => [EvSetPid pid]
  | _ :: _, [] => [EvUnsetPid pid]
  | _, _ => []
  end.

(** The specification's effect of an operation on the collection of its
    slot: "appends subscriber", "removes every occurrence of subscriber". *)
Definition spec_collection (op : pid_op) (before : ulist) : ulist :=
  match op with
  | Subscribe _ output => before ++ [output]
  | Unsubscribe _ output => List.filter (fun x => negb (Nat.eqb x output)) before
  end.

(** Whether an event forwards a packet to an output. *)
Definition forwards (e : event) : bool :=
  match e with EvOutput _ _ _ => true | _ => false end.

(** What the input handler does with a data uref while flow_def_ok is
    false (lines 487-491). *)
Definition flow_def_drop (u : uref) : list event := [EvFree u; EvFlowDefError].

(** The PID table has its MAX_PIDS slots. *)
Definition table_ok (s : upipe_ts_split) : Prop :=
  length (pids s) = Z.to_nat MAX_PIDS.

(** The flag of every slot tells whether its collection is non-empty. *)
Definition flags_ok (s : upipe_ts_split) : Prop :=
  forall pid p, pid_slot s pid = Some p ->
    set p = negb (ulist_empty (outputs p)).

(** Whether the struct uchain of an output is part of the list of a slot. *)
Definition linked (s : upipe_ts_split) (output : handle) : bool :=
  existsb (fun p => existsb (Nat.eqb output) (outputs p)) (pids s).

(** The tables the code can hold: the lists are chains of the one struct
    uchain of each output, so no output is twice in a list, and none is in
    two lists. *)
Definition chains_ok (s : upipe_ts_split) : Prop :=
  (forall i p, pids s !! i = Some p -> List.NoDup (outputs p)) /\
  (forall i j p q h,
     pids s !! i = Some p -> pids s !! j = Some q ->
     In h (outputs p) -> In h (outputs q) -> i = j).

(** ulist_add writes the struct uchain of the output it is given: a
    subscription is that of an output which is in no list at that time. A
    removal has no such condition. *)
Definition op_fresh (s : upipe_ts_split) (op : pid_op) : bool :=
  match op with
  | Subscribe _ output => negb (linked s output)
  | Unsubscribe _ _ => true
  end.

(** The same along a sequence of operations, each looked at in the table
    the operations before it have left. *)
Fixpoint ops_fresh (s : upipe_ts_split) (ops : list pid_op) : bool :=
  match ops with
  | [] => true
  | op :: ops' =>
      op_fresh s op &&
      match pid_op_step s op with
      | Some (s', _) => ops_fresh s' ops'
      | None => true
      end
  end.

End Split.

(** ** Stand-ins for the external collaborators, for worked examples *)

Module Sample.
Import Upipe TS Dvbcsa.

(** A cipher that xors every byte with the first byte of the control word. *)
Definition xor_cipher : libdvbcsa :=
  {| dvbcsa_key_t := Z;
     dvbcsa_key_set := fun cw => nth 0 cw 0;
     dvbcsa_decrypt := fun k data => map (Z.lxor k) data;
     dvbcsa_decrypt_length := fun k data => length_map (Z.lxor k) data |}.

(** A whitelist kept as a list of PIDs, with the specification's parser. *)
Definition list_common : dvbcsa_common :=
  {| upipe_dvbcsa_common := list Z;
     upipe_dvbcsa_common_check_pid := fun l pid => existsb (Z.eqb pid) l;
     ustring_to_dvbcsa_cw := spec_ustring_to_dvbcsa_cw |}.

(** A 188-byte packet from its four header bytes, an optional
    adaptation_field_length byte, and zeroes. *)
Definition packet (header : list Z) : list Z :=
  header ++ repeat 0 (TS_SIZE - length header).

Definition block (b : list Z) : uref :=
  {| f_def := None; t_pid := None; ubuf := Some b |}.

(** A pipe with a key and PID 0x100 whitelisted, and the same without key. *)
Definition keyed : upipe_dvbcsa_dec (L := xor_cipher) (C := list_common) :=
  @Build_upipe_dvbcsa_dec xor_cipher list_common (Some 0x5a) [0x100].

Definition keyless : upipe_dvbcsa_dec (L := xor_cipher) (C := list_common) :=
  @Build_upipe_dvbcsa_dec xor_cipher list_common None [0x100].

Definition alloc_ok : alloc :=
  {| ubuf_block_copy_ok := true; ubuf_block_write_ok := true |}.

(** A flow definition that carries a PID, one that carries a tag, and an
    output subpipe with no flow definition yet. *)
Definition flow_pid (pid : Z) : uref :=
  {| f_def := None; t_pid := Some pid; ubuf := None |}.

Definition flow_tag (def : string) : uref :=
  {| f_def := Some def; t_pid := None; ubuf := None |}.

Definition new_output (h : Split.handle) : Split.upipe_ts_split_output :=
  {| Split.self := h; Split.flow_def := None |}.

(** The split pipe with the given outputs on PID 0x100, in this order. *)
Definition split_with (l : Split.ulist) (ok : bool) : Split.upipe_ts_split :=
  {| Split.flow_def_ok := ok;
     Split.pids :=
       <[256%nat := {| Split.outputs := l;
                       Split.set := negb (Split.ulist_empty l) |}]>
         (Split.pids Split.upipe_ts_split_alloc) |}.

Definition always (b : bool) : nat -> bool := fun _ => b.

(** uref_dup succeeds except at its n-th call. *)
Definition fails_at (n : nat) : nat -> bool := fun i => negb (Nat.eqb i n).

End Sample.

(** ** The rest of the two files: allocation, release, traces *)

Module DvbcsaMore.
Import Upipe TS Dvbcsa.

Section Pipe.
Context {L : libdvbcsa} {C : dvbcsa_common}.

(** upipe_dvbcsa_dec_alloc (lines 103-125): the key starts as NULL;
    [common_init] is what upipe_dvbcsa_common_init leaves in the common part.
    The allocation itself and the ready event are the framework's. *)
Definition upipe_dvbcsa_dec_alloc (common_init : upipe_dvbcsa_common)
    : upipe_dvbcsa_dec :=
  {| key := None; common := common_init |}.

(** Whether an event is a uref_free. *)
Definition is_free (e : event) : bool :=
  match e with EvFree _ => true | _ => false end.

(** How many events of a trace are of a kind. *)
Definition count (kind : event -> bool) (evs : list event) : nat :=
  length (List.filter kind evs).

End Pipe.

(** A buffer of uint8_t. *)
Definition bytes (b : list Z) : Prop := Forall (fun x => 0 <= x < 256) b.

End DvbcsaMore.

Module SplitOutput.
Import Upipe TS Split.

(** The events of an output subpipe's life: those of the split pipe it
    causes, and its own upipe_throw_ready and upipe_throw_dead. *)
Inductive output_event : Type :=
  | OfSplit (e : event)
  | EvReady (output : handle)
  | EvDead (output : handle).

(** upipe_ts_split_output_alloc (lines 157-171): NULL when malloc fails;
    otherwise a subpipe with no flow definition (upipe_ts_split_output_
    init_output), at the address malloc returned, and the ready event. *)
Definition upipe_ts_split_output_alloc (malloc : option handle)
    : option upipe_ts_split_output * list output_event :=
  match malloc with
  | None => (None, [])
  | Some h => (Some {| self := h; flow_def := None |}, [EvReady h])
  end.

(** upipe_ts_split_output_release (lines 260-284). [last] is the answer of
    urefcount_release: true when this was the last reference. The removal is
    made with the struct upipe of the split pipe, the PID converted to
    uint16_t; then the dead event is thrown and the subpipe freed. *)
Definition upipe_ts_split_output_release (o : upipe_ts_split_output)
    (s : upipe_ts_split) (last : bool)
    : option (upipe_ts_split * list output_event) :=
  if last then
    match
      match flow_def o with
      | Some fd =>
          match uref_ts_flow_get_pid fd with
          | Some pid =>
              upipe_ts_split_pid_unset upipe_ts_split_to_upipe s
                (pid mod 65536) (self o)
          | None => Some (s, [])
          end
      | None => Some (s, [])
      end
    with
    | None => None
    | Some (s', evs) => Some (s', map OfSplit evs ++ [EvDead (self o)])
    end
  else Some (s, []).

(** Kinds of events of the split pipe, for counting. *)
Definition is_free (e : event) : bool :=
  match e with EvFree _ => true | _ => false end.

Definition is_original (e : event) : bool :=
  match e with EvOutput _ Original _ => true | _ => false end.

Definition is_set_pid (pid : Z) (e : event) : bool :=
  match e with EvSetPid p => p =? pid | _ => false end.

Definition is_unset_pid (pid : Z) (e : event) : bool :=
  match e with EvUnsetPid p => p =? pid | _ => false end.

Definition count (kind : event -> bool) (evs : list event) : nat :=
  length (List.filter kind evs).

(** The outputs a trace forwards to, in order. *)
Definition forwarded_to (evs : list event) : list handle :=
  flat_map (fun e => match e with EvOutput h _ _ => [h] | _ => [] end) evs.

(** The value of flow_def_ok after a run of the input handler: that of the
    test of line 474 on the last flow definition of the run, the old one when
    the run has none. *)
Definition ready_after (ok : bool) (l : list ((nat -> bool) * uref)) : bool :=
  fold_left
    (fun ok du =>
       match uref_flow_get_def (snd du) with
       | Some def => negb (ubase_ncmp def EXPECTED_FLOW_DEF)
       | None => ok
       end) l ok.

(** Whether the slot of a PID has a subscriber, as 0 or 1. *)
Definition occupied (s : upipe_ts_split) (pid : Z) : Z :=
  if ulist_empty (subscribers s pid) then 0 else 1.

End SplitOutput.

(** * Properties of the descrambling pipe *)

Section DvbcsaProps.
Import Upipe TS Dvbcsa.
Context {L : libdvbcsa} {C : dvbcsa_common}.

Lemma at_firstn (p_ts : list Z) (n i : nat) :
  (i < n)%nat -> at_ (firstn n p_ts) i = at_ p_ts i.
Proof.
  intros Hi. unfold at_. rewrite nth_firstn.
  destruct (Nat.ltb_spec i n); [reflexivity | lia].
Qed.

Lemma peek_header (u : uref) (b : list Z) :
  ubuf u = Some b -> (4 <= length b)%nat ->
  uref_block_peek u 0 TS_HEADER_SIZE = Some (firstn 4 b).
Proof.
  intros Hb Hlen. unfold uref_block_peek, TS_HEADER_SIZE. rewrite Hb.
  destruct (Nat.leb_spec (0 + 4) (length b)); [reflexivity | lia].
Qed.

Lemma peek_short (u : uref) (b : list Z) :
  ubuf u = Some b -> (length b < 4)%nat ->
  uref_block_peek u 0 TS_HEADER_SIZE = None.
Proof.
  intros Hb Hlen. unfold uref_block_peek, TS_HEADER_SIZE. rewrite Hb.
  destruct (Nat.leb_spec (0 + 4) (length b)); [lia | reflexivity].
Qed.

Lemma extract_at (u : uref) (b : list Z) (offset : nat) :
  ubuf u = Some b -> (offset < length b)%nat ->
  uref_block_extract u offset = Some (at_ b offset).
Proof.
  intros Hb Hlen. unfold uref_block_extract, uref_block_peek. rewrite Hb.
  destruct (Nat.leb_spec (offset + 1) (length b)); [| lia].
  unfold at_. replace offset with (offset + 0)%nat at 2 by lia.
  rewrite <- nth_skipn.
  assert (Hs : length (skipn offset b) = (length b - offset)%nat)
    by apply length_skipn.
  destruct (skipn offset b) as [| x [| y l]] eqn:E; simpl in *;
    try reflexivity; lia.
Qed.

(** The header fields read through the 4-byte peek are those of the buffer. *)
Lemma header_fields (b : list Z) :
  ts_get_scrambling (firstn 4 b) = ts_get_scrambling b /\
  ts_has_payload (firstn 4 b) = ts_has_payload b /\
  ts_has_adaptation (firstn 4 b) = ts_has_adaptation b /\
  ts_get_pid (firstn 4 b) = ts_get_pid b.
Proof.
  unfold ts_get_scrambling, ts_has_payload, ts_has_adaptation, ts_get_pid.
  rewrite !at_firstn by lia. repeat split; reflexivity.
Qed.

(** Byte 3 after ts_set_scrambling(ts, 0): the low six bits of the old one. *)
Lemma set_scrambling_0_byte (b : Z) :
  Z.land (Z.lor (Z.land (Z.land b (Z.lnot 0xc0)) 0xff) (Z.shiftl 0 6)) 0xff
  = Z.land b 0x3f.
Proof.
  rewrite Z.shiftl_0_l, Z.lor_0_r, <- !Z.land_assoc. reflexivity.
Qed.

Lemma at_set_scrambling_0 (p_ts : list Z) (i : nat) :
  (4 <= length p_ts)%nat ->
  at_ (ts_set_scrambling p_ts 0) i =
  if Nat.eqb i 3 then Z.land (at_ p_ts 3) 0x3f else at_ p_ts i.
Proof.
  intros Hlen. unfold ts_set_scrambling. rewrite set_scrambling_0_byte.
  unfold at_ at 1. rewrite nth_lookup.
  destruct (Nat.eqb_spec i 3) as [-> | Hne].
  - rewrite list_lookup_insert_eq by lia. reflexivity.
  - rewrite list_lookup_insert_ne by congruence.
    unfold at_. rewrite nth_lookup. reflexivity.
Qed.

Lemma drop_set_scrambling (p_ts : list Z) (n : nat) (i_scrambling : Z) :
  (4 <= n)%nat ->
  skipn n (ts_set_scrambling p_ts i_scrambling) = skipn n p_ts.
Proof.
  intros Hn. unfold ts_set_scrambling. apply drop_insert_lt. lia.
Qed.

Lemma scrambling_cleared (b : Z) :
  Z.shiftr (Z.land (Z.land b 0x3f) 0xc0) 6 = 0.
Proof.
  rewrite <- Z.land_assoc. change (Z.land 0x3f 0xc0) with 0.
  rewrite Z.land_0_r. reflexivity.
Qed.

(** The decryption path of the input handler, once every test is passed and
    the adaptation field, if any, has a valid length. *)
Lemma dec_input_decrypt_path (upipe : upipe_dvbcsa_dec) (a : alloc) (u : uref)
    (p_ts : list Z) (k : dvbcsa_key_t) :
  key upipe = Some k ->
  ubuf u = Some p_ts ->
  (payload_start p_ts <= length p_ts)%nat ->
  (ts_has_adaptation p_ts = true -> 0 <= ts_af_length p_ts <= 182) ->
  ts_get_scrambling p_ts = 2 ->
  ts_has_payload p_ts = true ->
  upipe_dvbcsa_common_check_pid (common upipe) (ts_get_pid p_ts) = true ->
  ubuf_block_copy_ok a = true ->
  ubuf_block_write_ok a = true ->
  upipe_dvbcsa_dec_input upipe a u =
    Some [EvDecrypt k (skipn (payload_start p_ts) p_ts);
          EvOutput (uref_attach_ubuf u
            (firstn (payload_start p_ts) (ts_set_scrambling p_ts 0) ++
             dvbcsa_decrypt k (skipn (payload_start p_ts) p_ts)))].
Proof.
  intros Hk Hb Hlen Haf Hsc Hpl Hpid Hcopy Hwrite.
  assert (H4 : (4 <= length p_ts)%nat).
  { unfold payload_start in Hlen. destruct (ts_has_adaptation p_ts); lia. }
  destruct (header_fields p_ts) as (Es & Ep & Ea & Ei).
  unfold upipe_dvbcsa_dec_input.
  rewrite Hk, (peek_header u p_ts Hb H4), Es, Ep, Ea, Ei, Hsc, Hpl, Hpid.
  cbn [Z.eqb Pos.eqb negb orb].
  assert (Hstep : adaptation_step u (ts_has_adaptation p_ts)
                    (Z.of_nat TS_HEADER_SIZE)
                  = inr (Z.of_nat (payload_start p_ts))).
  { unfold adaptation_step, payload_start in *.
    destruct (ts_has_adaptation p_ts) eqn:Ead; [| reflexivity].
    specialize (Haf eq_refl).
    change (Z.to_nat (Z.of_nat TS_HEADER_SIZE)) with 4%nat.
    rewrite (extract_at u p_ts 4 Hb) by lia.
    fold (ts_af_length p_ts).
    destruct (Z.leb_spec 183 (ts_af_length p_ts)); [lia |].
    f_equal. unfold TS_HEADER_SIZE. lia. }
  rewrite Hstep, Hcopy, Hb, Hwrite. cbn [negb].
  destruct (Z.ltb_spec (Z.of_nat (length p_ts) - Z.of_nat (payload_start p_ts)) 0);
    [lia |].
  rewrite Nat2Z.id, drop_set_scrambling; [reflexivity |].
  unfold payload_start. destruct (ts_has_adaptation p_ts); lia.
Qed.

(** C1. For a well-formed packet with scrambling control 2, a payload, a
    whitelisted PID and a stored key (the buffer copy and its write mapping
    being granted), the input handler calls the cipher with the stored key on
    the bytes from payload_start to the end and outputs a packet of the same
    length whose scrambling control is 0, whose bytes from payload_start on
    are the cipher's output, and whose bytes before payload_start are those
    of the input, byte 3 apart, which keeps its six low bits. payload_start
    is 4 without adaptation field and 4 + 1 + adaptation_field_length with
    one. *)
Theorem dec_input_descrambles (upipe : upipe_dvbcsa_dec) (a : alloc)
    (u : uref) (p_ts : list Z) (k : dvbcsa_key_t) :
  key upipe = Some k ->
  ubuf u = Some p_ts ->
  well_formed p_ts ->
  ts_get_scrambling p_ts = 2 ->
  ts_has_payload p_ts = true ->
  upipe_dvbcsa_common_check_pid (common upipe) (ts_get_pid p_ts) = true ->
  ubuf_block_copy_ok a = true ->
  ubuf_block_write_ok a = true ->
  let start := payload_start p_ts in
  start = (if ts_has_adaptation p_ts
           then 4 + 1 + Z.to_nat (ts_af_length p_ts) else 4)%nat /\
  exists out,
    upipe_dvbcsa_dec_input upipe a u =
      Some [EvDecrypt k (skipn start p_ts);
            EvOutput (uref_attach_ubuf u out)] /\
    length out = length p_ts /\
    ts_get_scrambling out = 0 /\
    skipn start out = dvbcsa_decrypt k (skipn start p_ts) /\
    (forall i, (i < start)%nat -> i <> 3%nat -> at_ out i = at_ p_ts i) /\
    at_ out 3 = Z.land (at_ p_ts 3) 0x3f.
Proof.
  intros Hk Hb (Hlen & Hbytes & Haf) Hsc Hpl Hpid Hcopy Hwrite start.
  split; [reflexivity |].
  assert (Hb4 : 0 <= ts_af_length p_ts < 256).
  { unfold ts_af_length, at_.
    rewrite List.Forall_forall in Hbytes. apply Hbytes, nth_In.
    rewrite Hlen. unfold TS_SIZE. lia. }
  assert (Hstart : (4 <= start <= length p_ts)%nat).
  { subst start. unfold payload_start.
    destruct (ts_has_adaptation p_ts); rewrite Hlen; unfold TS_SIZE;
      [specialize (Haf eq_refl Hpl) |]; lia. }
  exists (firstn start (ts_set_scrambling p_ts 0) ++
          dvbcsa_decrypt k (skipn start p_ts)).
  assert (Hfl : length (firstn start (ts_set_scrambling p_ts 0)) = start).
  { rewrite length_firstn. unfold ts_set_scrambling.
    rewrite length_insert. lia. }
  split.
  { apply dec_input_decrypt_path; try assumption; [lia |].
    intros Had. specialize (Haf Had Hpl). lia. }
  split.
  { rewrite length_app, Hfl, dvbcsa_decrypt_length, length_skipn. lia. }
  assert (Hat : forall i, (i < start)%nat ->
            at_ (firstn start (ts_set_scrambling p_ts 0) ++
                 dvbcsa_decrypt k (skipn start p_ts)) i
            = if Nat.eqb i 3 then Z.land (at_ p_ts 3) 0x3f else at_ p_ts i).
  { intros i Hi. unfold at_ at 1. rewrite app_nth1 by lia.
    fold (at_ (firstn start (ts_set_scrambling p_ts 0)) i).
    rewrite at_firstn by lia. apply at_set_scrambling_0. lia. }
  split.
  { unfold ts_get_scrambling. rewrite Hat by lia. apply scrambling_cleared. }
  split.
  { rewrite <- Hfl at 1. apply drop_app_length. }
  split.
  { intros i Hi Hne. rewrite Hat by lia.
    destruct (Nat.eqb_spec i 3); [contradiction | reflexivity]. }
  rewrite Hat by lia. reflexivity.
Qed.

(** The tests of lines 142-165 on any buffer whose header can be read. *)
Lemma dec_input_guard (upipe : upipe_dvbcsa_dec) (a : alloc) (u : uref)
    (p_ts : list Z) :
  ubuf u = Some p_ts ->
  (4 <= length p_ts)%nat ->
  ts_get_scrambling p_ts <> 2 \/ ts_has_payload p_ts = false \/
  upipe_dvbcsa_common_check_pid (common upipe) (ts_get_pid p_ts) = false \/
  key upipe = None ->
  upipe_dvbcsa_dec_input upipe a u = Some [EvOutput u].
Proof.
  intros Hb Hlen Hguard. unfold upipe_dvbcsa_dec_input.
  destruct (key upipe) as [k |]; [| reflexivity].
  rewrite (peek_header u p_ts Hb Hlen).
  destruct (header_fields p_ts) as (-> & -> & _ & ->).
  destruct Hguard as [Hsc | [Hpl | [Hpid | Hk]]].
  - destruct (Z.eqb_spec (ts_get_scrambling p_ts) 2); [contradiction |].
    reflexivity.
  - rewrite Hpl, orb_true_r. reflexivity.
  - rewrite Hpid, orb_true_r. reflexivity.
  - discriminate.
Qed.

(** C3. A well-formed packet whose scrambling control is not 2, or that has
    no payload flag, or whose PID is not in the whitelist, or that arrives
    while no key is stored, is output as it came in: the one event of the
    call is the output of the input uref, bytes untouched. *)
Theorem dec_input_pass_through (upipe : upipe_dvbcsa_dec) (a : alloc)
    (u : uref) (p_ts : list Z) :
  ubuf u = Some p_ts ->
  well_formed p_ts ->
  ts_get_scrambling p_ts <> 2 \/ ts_has_payload p_ts = false \/
  upipe_dvbcsa_common_check_pid (common upipe) (ts_get_pid p_ts) = false \/
  key upipe = None ->
  exists out,
    upipe_dvbcsa_dec_input upipe a u = Some [EvOutput out] /\
    out = u /\ ubuf out = Some p_ts.
Proof.
  intros Hb (Hlen & _) Hguard. exists u. split; [| split; [reflexivity | exact Hb]].
  apply (dec_input_guard upipe a u p_ts Hb); [| exact Hguard].
  rewrite Hlen. unfold TS_SIZE. lia.
Qed.

(** C8. A packet that passes every test (scrambling control 2, payload,
    whitelisted PID, key stored) and has an adaptation field whose length
    byte is 183 or more is dropped with a warning: the call logs the warning
    and frees the uref, nothing is output, the cipher is not called, and the
    packets that follow are handled by the same pipe as if it had not come. *)
Theorem dec_input_invalid_adaptation (upipe : upipe_dvbcsa_dec) (a : alloc)
    (u : uref) (p_ts : list Z) (k : dvbcsa_key_t) :
  key upipe = Some k ->
  ubuf u = Some p_ts ->
  (5 <= length p_ts)%nat ->
  ts_get_scrambling p_ts = 2 ->
  ts_has_payload p_ts = true ->
  upipe_dvbcsa_common_check_pid (common upipe) (ts_get_pid p_ts) = true ->
  ts_has_adaptation p_ts = true ->
  183 <= ts_af_length p_ts ->
  let dropped := [EvLog ULOG_WARNING "invalid adaptation field received";
                  EvFree u] in
  upipe_dvbcsa_dec_input upipe a u = Some dropped /\
  existsb is_output dropped = false /\
  existsb is_decrypt dropped = false /\
  forall rest,
    upipe_dvbcsa_dec_inputs upipe ((a, u) :: rest) =
    match upipe_dvbcsa_dec_inputs upipe rest with
    | Some evs => Some (dropped ++ evs)
    | None => None
    end.
Proof.
  intros Hk Hb Hlen Hsc Hpl Hpid Had Haf dropped.
  assert (Hin : upipe_dvbcsa_dec_input upipe a u = Some dropped).
  { unfold upipe_dvbcsa_dec_input.
    rewrite Hk, (peek_header u p_ts Hb) by lia.
    destruct (header_fields p_ts) as (-> & -> & -> & ->).
    rewrite Hsc, Hpl, Hpid, Had. cbn [Z.eqb Pos.eqb negb orb].
    unfold adaptation_step.
    change (Z.to_nat (Z.of_nat TS_HEADER_SIZE)) with 4%nat.
    rewrite (extract_at u p_ts 4 Hb) by lia. fold (ts_af_length p_ts).
    destruct (Z.leb_spec 183 (ts_af_length p_ts)); [reflexivity | lia]. }
  repeat split; try reflexivity; [exact Hin |].
  intros rest. cbn [upipe_dvbcsa_dec_inputs]. rewrite Hin. reflexivity.
Qed.

(** C10. Without a key the input handler outputs every uref as it is and
    reads nothing of it, so a buffer of fewer than 4 bytes is output intact;
    with a key, a buffer of fewer than 4 bytes is dropped with an error and
    nothing is output. *)
Theorem dec_input_short_buffer (upipe : upipe_dvbcsa_dec) (a : alloc)
    (u : uref) (p_ts : list Z) :
  ubuf u = Some p_ts ->
  (length p_ts < 4)%nat ->
  (key upipe = None ->
     (forall a' u', upipe_dvbcsa_dec_input upipe a' u' = Some [EvOutput u']) /\
     upipe_dvbcsa_dec_input upipe a u = Some [EvOutput u]) /\
  (forall k, key upipe = Some k ->
     upipe_dvbcsa_dec_input upipe a u =
       Some [EvLog ULOG_ERROR "fail to read ts header"; EvFree u] /\
     existsb is_output
       [EvLog ULOG_ERROR "fail to read ts header"; EvFree u] = false).
Proof.
  intros Hb Hlen. split.
  - intros Hk. unfold upipe_dvbcsa_dec_input. rewrite Hk.
    split; [intros a' u' |]; reflexivity.
  - intros k Hk. split; [| reflexivity].
    unfold upipe_dvbcsa_dec_input.
    rewrite Hk, (peek_short u p_ts Hb Hlen). reflexivity.
Qed.

(** C4. set_key with no text succeeds and leaves no key. set_key with a text
    the code rejects (the parser consumed nothing, or not the whole text)
    returns the invalid-argument error and leaves no key. In every case the
    outcome does not depend on the key stored before: no call retains it. *)
Theorem set_key_discards_previous (upipe : upipe_dvbcsa_dec)
    (key_alloc_ok : bool) :
  let keyless := {| key := None; common := common upipe |} in
  upipe_dvbcsa_dec_set_key upipe key_alloc_ok None
    = (UBASE_ERR_NONE, keyless, []) /\
  (forall text, set_key_rejects text = true ->
     upipe_dvbcsa_dec_set_key upipe key_alloc_ok (Some text)
       = (UBASE_ERR_INVALID, keyless, [])) /\
  (forall arg,
     upipe_dvbcsa_dec_set_key upipe key_alloc_ok arg
       = upipe_dvbcsa_dec_set_key keyless key_alloc_ok arg) /\
  (forall text err upipe' evs,
     upipe_dvbcsa_dec_set_key upipe key_alloc_ok (Some text)
       = (err, upipe', evs) ->
     key upipe' = None \/
     key upipe' = Some (dvbcsa_key_set (value (ustring_to_dvbcsa_cw text)))).
Proof.
  intros keyless. repeat split.
  - intros text Hrej. unfold upipe_dvbcsa_dec_set_key. rewrite Hrej.
    reflexivity.
  - intros text err upipe' evs. unfold upipe_dvbcsa_dec_set_key.
    destruct (set_key_rejects text); [| destruct key_alloc_ok]; cbn [negb];
      intros [= _ <- _]; cbn [key]; auto.
Qed.

End DvbcsaProps.

(** ** Worked examples for the descrambling pipe *)

Section DvbcsaExamples.
Import Upipe TS Dvbcsa Sample.

Lemma packet_well_formed (header : list Z) :
  (length header <= TS_SIZE)%nat ->
  Forall (fun b => 0 <= b < 256) header ->
  (ts_has_adaptation (packet header) = true ->
   ts_has_payload (packet header) = true ->
   ts_af_length (packet header) <= 182) ->
  well_formed (packet header).
Proof.
  intros Hlen Hb Haf. unfold well_formed. split; [| split; [| exact Haf]].
  - unfold packet. rewrite length_app, repeat_length. lia.
  - apply Forall_app. split; [exact Hb |].
    apply List.Forall_forall. intros x Hx. apply repeat_spec in Hx. lia.
Qed.

(** Scenario 2 of the specification: header 47 01 00 90, PID 0x100
    whitelisted, a key stored. *)
Lemma dec_input_descrambles_witness :
  exists out,
    upipe_dvbcsa_dec_input keyed alloc_ok (block (packet [0x47; 0x01; 0x00; 0x90]))
    = Some [EvDecrypt (0x5a : @dvbcsa_key_t xor_cipher) (repeat 0 184);
            EvOutput (block out)] /\
    ts_get_scrambling out = 0 /\
    skipn 4 out = repeat 0x5a 184.
Proof.
  destruct (@dec_input_descrambles xor_cipher list_common keyed alloc_ok
              (block (packet [0x47; 0x01; 0x00; 0x90]))
              (packet [0x47; 0x01; 0x00; 0x90]) 0x5a)
    as (_ & out & Hrun & _ & Hsc & Hpay & _); try reflexivity.
  - apply packet_well_formed.
    + vm_compute. lia.
    + repeat constructor; lia.
    + vm_compute. discriminate.
  - exists out. repeat split; assumption.
Defined.

(** The same packet with an adaptation field of 7 bytes (header 47 01 00 b0,
    length byte 07): the payload starts at 4 + 1 + 7. *)
Example dec_input_descrambles_adaptation :
  upipe_dvbcsa_dec_input keyed alloc_ok
    (block (packet [0x47; 0x01; 0x00; 0xb0; 0x07]))
  = Some [EvDecrypt (0x5a : @dvbcsa_key_t xor_cipher) (repeat 0 176);
          EvOutput (block ([0x47; 0x01; 0x00; 0x30; 0x07] ++ repeat 0 7 ++
                           repeat 0x5a 176))].
Proof. vm_compute. reflexivity. Qed.

(** Scenario 1 of the specification: header 47 01 00 10, no key. *)
Lemma dec_input_pass_through_witness :
  exists out,
    upipe_dvbcsa_dec_input keyless alloc_ok
      (block (packet [0x47; 0x01; 0x00; 0x10])) = Some [EvOutput out] /\
    out = block (packet [0x47; 0x01; 0x00; 0x10]) /\
    ubuf out = Some (packet [0x47; 0x01; 0x00; 0x10]).
Proof.
  apply (@dec_input_pass_through xor_cipher list_common keyless alloc_ok
           (block (packet [0x47; 0x01; 0x00; 0x10]))
           (packet [0x47; 0x01; 0x00; 0x10])).
  - reflexivity.
  - apply packet_well_formed.
    + vm_compute. lia.
    + repeat constructor; lia.
    + vm_compute. discriminate.
  - right. right. right. reflexivity.
Defined.

(** Odd-key scrambling (control 3) with a key and the PID whitelisted, and
    even-key scrambling on a PID that is not whitelisted, both pass through. *)
Example dec_input_pass_through_odd :
  upipe_dvbcsa_dec_input keyed alloc_ok
    (block (packet [0x47; 0x01; 0x00; 0xd0]))
  = Some [EvOutput (block (packet [0x47; 0x01; 0x00; 0xd0]))].
Proof. vm_compute. reflexivity. Qed.

Example dec_input_pass_through_pid :
  upipe_dvbcsa_dec_input keyed alloc_ok
    (block (packet [0x47; 0x01; 0x01; 0x90]))
  = Some [EvOutput (block (packet [0x47; 0x01; 0x01; 0x90]))].
Proof. vm_compute. reflexivity. Qed.

(** Adaptation field length 183 on the decryption path. *)
Lemma dec_input_invalid_adaptation_witness :
  upipe_dvbcsa_dec_input keyed alloc_ok
    (block (packet [0x47; 0x01; 0x00; 0xb0; 183]))
  = Some [EvLog ULOG_WARNING "invalid adaptation field received";
          EvFree (block (packet [0x47; 0x01; 0x00; 0xb0; 183]))].
Proof.
  apply (@dec_input_invalid_adaptation xor_cipher list_common keyed alloc_ok
           (block (packet [0x47; 0x01; 0x00; 0xb0; 183]))
           (packet [0x47; 0x01; 0x00; 0xb0; 183]) 0x5a);
    try reflexivity; vm_compute; lia.
Defined.

(** A buffer of three bytes, with a key. *)
Lemma dec_input_short_buffer_witness :
  upipe_dvbcsa_dec_input keyed alloc_ok (block [0x47; 0x01; 0x00])
  = Some [EvLog ULOG_ERROR "fail to read ts header";
          EvFree (block [0x47; 0x01; 0x00])].
Proof.
  destruct (@dec_input_short_buffer xor_cipher list_common keyed alloc_ok
              (block [0x47; 0x01; 0x00]) [0x47; 0x01; 0x00] eq_refl)
    as [_ Hkey].
  - vm_compute. lia.
  - exact (proj1 (Hkey 0x5a eq_refl)).
Defined.

(** The same buffer, without key. *)
Example dec_input_short_buffer_keyless :
  upipe_dvbcsa_dec_input keyless alloc_ok (block [0x47; 0x01; 0x00])
  = Some [EvOutput (block [0x47; 0x01; 0x00])].
Proof. reflexivity. Qed.

(** set_key("bad") on a pipe that holds a key. *)
Lemma set_key_discards_previous_witness :
  upipe_dvbcsa_dec_set_key keyed true (Some "bad"%string)
  = (UBASE_ERR_INVALID, keyless, []).
Proof.
  exact (proj1 (proj2
           (@set_key_discards_previous xor_cipher list_common keyed true))
           "bad"%string eq_refl).
Defined.

(** With the specification's parser a text is rejected whenever its length
    is not that of a control word, 16 characters: too short, nothing is
    parsed; too long, characters are left over. *)
Lemma hex_bytes_length (n : nat) :
  forall s bs, hex_bytes n s = Some bs -> (2 * n <= String.length s)%nat.
Proof.
  induction n as [| n IH]; intros s bs H; [cbn; lia |].
  destruct s as [| c1 [| c2 s']]; try discriminate H.
  cbn [hex_bytes] in H.
  destruct (hex_digit c1), (hex_digit c2), (hex_bytes n s') eqn:E;
    try discriminate H.
  specialize (IH s' _ E). cbn [String.length]. lia.
Qed.

Lemma substring_0_length (n : nat) :
  forall s, (n <= String.length s)%nat ->
            String.length (substring 0 n s) = n.
Proof.
  induction n as [| n IH]; intros s H.
  - destruct s; reflexivity.
  - destruct s as [| c s']; cbn in H; [lia |].
    cbn. rewrite IH by lia. reflexivity.
Qed.

Lemma spec_parser_rejects_wrong_length (text : string) :
  String.length text <> 16%nat ->
  set_key_rejects (C := list_common) text = true.
Proof.
  intros Hlen. unfold set_key_rejects. cbn [ustring_to_dvbcsa_cw list_common].
  unfold spec_ustring_to_dvbcsa_cw.
  destruct (hex_bytes 8 text) as [bs |] eqn:E; cbn [str]; [| reflexivity].
  apply hex_bytes_length in E.
  rewrite substring_0_length by lia.
  destruct (Nat.eqb_spec (String.length text) 16); [contradiction |].
  reflexivity.
Qed.

(** A control word of 16 hexadecimal characters is accepted; the same with a
    character more is rejected. *)
Example set_key_accepts :
  upipe_dvbcsa_dec_set_key keyless true (Some "0011223344556677"%string)
  = (UBASE_ERR_NONE,
     @Build_upipe_dvbcsa_dec xor_cipher list_common (Some 0) [0x100],
     [EvLog ULOG_NOTICE "key changed"]).
Proof. reflexivity. Qed.

Example set_key_trailing :
  upipe_dvbcsa_dec_set_key keyed true (Some "00112233445566770"%string)
  = (UBASE_ERR_INVALID, keyless, []).
Proof. reflexivity. Qed.

End DvbcsaExamples.

(** * Properties of the PID demultiplexer *)

Section SplitProps.
Import Upipe TS Split.

Lemma assert_pid_range (pid : Z) :
  assert_pid pid = true <-> 0 <= pid < MAX_PIDS.
Proof.
  unfold assert_pid. rewrite andb_true_iff, Z.leb_le, Z.ltb_lt. reflexivity.
Qed.

Lemma pid_slot_in_table (s : upipe_ts_split) (pid : Z) :
  table_ok s -> assert_pid pid = true -> exists p, pid_slot s pid = Some p.
Proof.
  intros Ht Hp. apply assert_pid_range in Hp.
  destruct (lookup_lt_is_Some_2 (pids s) (Z.to_nat pid)) as [p Hs].
  - rewrite Ht. lia.
  - exists p. exact Hs.
Qed.

Lemma store_slot_id (s : upipe_ts_split) (pid : Z) (p : upipe_ts_split_pid) :
  pid_slot s pid = Some p -> store_slot s pid p = s.
Proof.
  intros Hs. destruct s as [ok tbl]. unfold store_slot, pid_slot in *.
  cbn in *. f_equal. apply list_insert_id. exact Hs.
Qed.

Lemma store_slot_store (s : upipe_ts_split) (pid : Z)
    (p q : upipe_ts_split_pid) :
  store_slot (store_slot s pid p) pid q = store_slot s pid q.
Proof.
  unfold store_slot. cbn. f_equal. apply list_insert_insert_eq.
Qed.

Lemma pid_slot_store_eq (s : upipe_ts_split) (pid : Z)
    (p q : upipe_ts_split_pid) :
  pid_slot s pid = Some p -> pid_slot (store_slot s pid q) pid = Some q.
Proof.
  intros Hs. unfold pid_slot, store_slot in *. cbn.
  apply list_lookup_insert_eq. eapply lookup_lt_Some. exact Hs.
Qed.

Lemma pid_slot_store_ne (s : upipe_ts_split) (pid pid' : Z)
    (q : upipe_ts_split_pid) :
  Z.to_nat pid <> Z.to_nat pid' ->
  pid_slot (store_slot s pid q) pid' = pid_slot s pid'.
Proof.
  intros Hne. unfold pid_slot, store_slot. cbn.
  apply list_lookup_insert_ne. exact Hne.
Qed.

Lemma table_ok_store (s : upipe_ts_split) (pid : Z) (q : upipe_ts_split_pid) :
  table_ok s -> table_ok (store_slot s pid q).
Proof.
  unfold table_ok, store_slot. cbn. rewrite length_insert. auto.
Qed.

Lemma flags_ok_store (s : upipe_ts_split) (pid : Z)
    (p q : upipe_ts_split_pid) :
  flags_ok s -> pid_slot s pid = Some p ->
  set q = negb (ulist_empty (outputs q)) ->
  flags_ok (store_slot s pid q).
Proof.
  intros Hf Hs Hq pid' p' Hs'.
  destruct (Nat.eq_dec (Z.to_nat pid) (Z.to_nat pid')) as [E | Hne].
  - assert (Hq' : pid_slot (store_slot s pid q) pid' = Some q).
    { unfold pid_slot in *. rewrite <- E.
      exact (pid_slot_store_eq s pid p q Hs). }
    rewrite Hq' in Hs'. injection Hs' as <-. exact Hq.
  - rewrite pid_slot_store_ne in Hs' by exact Hne. eapply Hf. exact Hs'.
Qed.

(** upipe_ts_split_pid_check makes the flag of the slot agree with its
    collection, and throws when, and only when, the flag changes. *)
Lemma pid_check_spec (s : upipe_ts_split) (pid : Z) (p : upipe_ts_split_pid) :
  assert_pid pid = true ->
  pid_slot s pid = Some p ->
  upipe_ts_split_pid_check upipe_ts_split_to_upipe s pid =
    Some (store_slot s pid
            {| outputs := outputs p; set := negb (ulist_empty (outputs p)) |},
          match set p, ulist_empty (outputs p) with
          | false, false => [EvSetPid pid]
          | true, true => [EvUnsetPid pid]
          | _, _ => []
          end).
Proof.
  intros Ha Hs. unfold upipe_ts_split_pid_check.
  rewrite Ha. cbn [negb upipe_ts_split_from_upipe]. rewrite Hs.
  destruct p as [l b]. cbn [outputs set].
  destruct (ulist_empty l), b; cbn [negb]; try reflexivity;
    rewrite (store_slot_id s pid _ Hs); reflexivity.
Qed.

(** One subscription or removal, on any table: the new slot, and the event
    thrown when its flag changes. *)
Lemma pid_op_step_store (s : upipe_ts_split) (op : pid_op)
    (p : upipe_ts_split_pid) :
  assert_pid (op_pid op) = true ->
  pid_slot s (op_pid op) = Some p ->
  let l' := spec_collection op (outputs p) in
  pid_op_step s op =
    Some (store_slot s (op_pid op)
            {| outputs := l'; set := negb (ulist_empty l') |},
          match set p, ulist_empty l' with
          | false, false => [EvSetPid (op_pid op)]
          | true, true => [EvUnsetPid (op_pid op)]
          | _, _ => []
          end).
Proof.
  intros Ha Hs l'.
  assert (Hcheck : forall l1, l1 = l' ->
    upipe_ts_split_pid_check upipe_ts_split_to_upipe
      (store_slot s (op_pid op) {| outputs := l1; set := set p |}) (op_pid op)
    = Some (store_slot s (op_pid op)
              {| outputs := l'; set := negb (ulist_empty l') |},
            match set p, ulist_empty l' with
            | false, false => [EvSetPid (op_pid op)]
            | true, true => [EvUnsetPid (op_pid op)]
            | _, _ => []
            end)).
  { intros l1 ->.
    rewrite (pid_check_spec _ (op_pid op) {| outputs := l'; set := set p |} Ha)
      by exact (pid_slot_store_eq s _ p _ Hs).
    rewrite store_slot_store. reflexivity. }
  destruct op as [pid output | pid output]; cbn [op_pid] in *;
    cbn [pid_op_step]; unfold upipe_ts_split_pid_set, upipe_ts_split_pid_unset;
    rewrite Ha; cbn [negb upipe_ts_split_from_upipe]; rewrite Hs;
    apply Hcheck; reflexivity.
Qed.

(** An output that is not linked is in the list of no slot. *)
Lemma linked_false (s : upipe_ts_split) (h : handle) :
  linked s h = false ->
  forall i p, pids s !! i = Some p -> ~ In h (outputs p).
Proof.
  intros Hl i p Hp Hin.
  assert (Ht : linked s h = true); [| congruence].
  unfold linked. apply existsb_exists. exists p. split.
  - apply list_elem_of_In. eapply list_elem_of_lookup_2. exact Hp.
  - apply existsb_exists. exists h. split; [exact Hin | apply Nat.eqb_refl].
Qed.

(** Writing the list of one slot keeps the table one of chains when the new
    list has no output twice and every output of it was in the old list of
    that slot, or in no list at all. *)
Lemma chains_ok_store (s : upipe_ts_split) (pid : Z)
    (p q : upipe_ts_split_pid) :
  chains_ok s ->
  pid_slot s pid = Some p ->
  List.NoDup (outputs q) ->
  (forall h, In h (outputs q) ->
     In h (outputs p) \/
     forall i p', pids s !! i = Some p' -> ~ In h (outputs p')) ->
  chains_ok (store_slot s pid q).
Proof.
  intros [Hnd Hone] Hs Hq Hfrom. unfold pid_slot in Hs.
  assert (Hk : (Z.to_nat pid < length (pids s))%nat)
    by (eapply lookup_lt_Some; exact Hs).
  assert (Hlook : forall i r, pids (store_slot s pid q) !! i = Some r ->
            (i = Z.to_nat pid /\ r = q) \/
            (i <> Z.to_nat pid /\ pids s !! i = Some r)).
  { intros i r Hr. unfold store_slot in Hr. cbn [pids] in Hr.
    destruct (Nat.eq_dec (Z.to_nat pid) i) as [<- | Hne].
    - rewrite list_lookup_insert_eq in Hr by exact Hk.
      injection Hr as <-. left. auto.
    - rewrite list_lookup_insert_ne in Hr by exact Hne. right. auto. }
  split.
  - intros i r Hr. destruct (Hlook i r Hr) as [[_ ->] | [_ Hold]];
      [exact Hq | exact (Hnd i r Hold)].
  - intros i j r1 r2 h Hr1 Hr2 Hin1 Hin2.
    destruct (Hlook i r1 Hr1) as [[-> ->] | [Hi Hold1]],
             (Hlook j r2 Hr2) as [[-> ->] | [Hj Hold2]].
    + reflexivity.
    + destruct (Hfrom h Hin1) as [Hp | Hnew].
      * exact (Hone _ _ _ _ h Hs Hold2 Hp Hin2).
      * exfalso. exact (Hnew j r2 Hold2 Hin2).
    + destruct (Hfrom h Hin2) as [Hp | Hnew].
      * exact (Hone _ _ _ _ h Hold1 Hs Hin1 Hp).
      * exfalso. exact (Hnew i r1 Hold1 Hin1).
    + exact (Hone _ _ _ _ h Hold1 Hold2 Hin1 Hin2).
Qed.

(** A subscription of an output that is in no list, and any removal, leave a
    table of chains. *)
Lemma pid_op_step_chains (s s' : upipe_ts_split) (op : pid_op)
    (evs : list event) :
  table_ok s -> chains_ok s ->
  assert_pid (op_pid op) = true ->
  op_fresh s op = true ->
  pid_op_step s op = Some (s', evs) ->
  chains_ok s'.
Proof.
  intros Ht Hc Ha Hfresh Hstep.
  destruct (pid_slot_in_table s (op_pid op) Ht Ha) as [p Hs].
  rewrite (pid_op_step_store s op p Ha Hs) in Hstep. injection Hstep as <- _.
  pose proof (proj1 Hc _ _ Hs) as Hnd.
  apply (chains_ok_store s _ p _ Hc Hs); cbn [outputs].
  - destruct op as [pid h | pid h]; cbn [spec_collection op_fresh] in *.
    + apply List.NoDup_app; [exact Hnd | repeat constructor; intros [] |].
      intros a Ha1 [-> | []].
      apply negb_true_iff in Hfresh.
      exact (linked_false s a Hfresh _ p Hs Ha1).
    + apply List.NoDup_filter. exact Hnd.
  - intros x Hx. destruct op as [pid h | pid h];
      cbn [spec_collection op_fresh] in *.
    + apply in_app_or in Hx as [Hx | [-> | []]]; [left; exact Hx | right].
      apply negb_true_iff in Hfresh. exact (linked_false s x Hfresh).
    + left. apply filter_In in Hx as [Hx _]. exact Hx.
Qed.

Lemma subscribers_slot (s : upipe_ts_split) (pid : Z) (p : upipe_ts_split_pid) :
  pid_slot s pid = Some p -> subscribers s pid = outputs p.
Proof. intros Hs. unfold subscribers. rewrite Hs. reflexivity. Qed.

Lemma ulist_add_not_empty (l : ulist) (x : handle) :
  ulist_empty (ulist_add l x) = false.
Proof. destruct l; reflexivity. Qed.

(** One subscription or removal on a table whose flags are right: the
    collection changes as the specification says, the notifications are those
    of the edge-triggered rule, and the flags are right again. *)
Lemma pid_op_step_spec (s : upipe_ts_split) (op : pid_op) :
  table_ok s -> flags_ok s -> assert_pid (op_pid op) = true ->
  exists s',
    pid_op_step s op =
      Some (s', spec_notifications (op_pid op)
                  (subscribers s (op_pid op)) (subscribers s' (op_pid op))) /\
    subscribers s' (op_pid op) = spec_collection op (subscribers s (op_pid op)) /\
    (forall pid', Z.to_nat (op_pid op) <> Z.to_nat pid' ->
                  pid_slot s' pid' = pid_slot s pid') /\
    flow_def_ok s' = flow_def_ok s /\
    table_ok s' /\ flags_ok s'.
Proof.
  intros Ht Hf Ha.
  destruct (pid_slot_in_table s (op_pid op) Ht Ha) as [p Hs].
  pose proof (Hf _ _ Hs) as Hflag.
  rewrite (subscribers_slot s _ p Hs).
  set (l' := spec_collection op (outputs p)).
  set (q := {| outputs := l'; set := negb (ulist_empty l') |}).
  exists (store_slot s (op_pid op) q).
  assert (Hq : pid_slot (store_slot s (op_pid op) q) (op_pid op) = Some q)
    by exact (pid_slot_store_eq s _ p q Hs).
  rewrite (subscribers_slot _ _ q Hq). cbn [outputs].
  split; [| split; [reflexivity | split; [| split; [reflexivity | split]]]].
  - assert (Hstep : forall l1, l1 = l' ->
      upipe_ts_split_pid_check upipe_ts_split_to_upipe
        (store_slot s (op_pid op) {| outputs := l1; set := set p |}) (op_pid op)
      = Some (store_slot s (op_pid op) q,
              spec_notifications (op_pid op) (outputs p) l')).
    { intros l1 ->.
      rewrite (pid_check_spec _ (op_pid op) {| outputs := l'; set := set p |} Ha)
        by exact (pid_slot_store_eq s _ p _ Hs).
      rewrite store_slot_store. cbn [outputs set]. f_equal. f_equal.
      rewrite Hflag. unfold spec_notifications.
      destruct (outputs p), l'; reflexivity. }
    destruct op as [pid output | pid output]; cbn [op_pid] in *;
      cbn [pid_op_step]; unfold upipe_ts_split_pid_set, upipe_ts_split_pid_unset;
      rewrite Ha; cbn [negb upipe_ts_split_from_upipe]; rewrite Hs;
      apply Hstep; reflexivity.
  - intros pid' Hne. apply pid_slot_store_ne. exact Hne.
  - apply table_ok_store. exact Ht.
  - apply (flags_ok_store s _ p q Hf Hs). reflexivity.
Qed.

Lemma alloc_table_ok : table_ok upipe_ts_split_alloc.
Proof. unfold table_ok, upipe_ts_split_alloc. cbn. apply length_replicate. Qed.

Lemma alloc_flags_ok : flags_ok upipe_ts_split_alloc.
Proof.
  intros pid p Hs. unfold pid_slot, upipe_ts_split_alloc in Hs. cbn in Hs.
  apply lookup_replicate in Hs as [-> _]. reflexivity.
Qed.

Lemma alloc_chains_ok : chains_ok upipe_ts_split_alloc.
Proof.
  unfold chains_ok, upipe_ts_split_alloc. cbn [pids]. split.
  - intros i p Hp. apply lookup_replicate in Hp as [-> _]. constructor.
  - intros i j p q h Hp _ Hin. apply lookup_replicate in Hp as [-> _].
    destruct Hin.
Qed.

(** Every sequence of operations on valid PIDs, each subscription being that
    of an output which is in no list, runs, and keeps the table, its flags
    and its chains right. *)
Lemma pid_ops_invariant (ops : list pid_op) (s : upipe_ts_split) :
  table_ok s -> flags_ok s -> chains_ok s ->
  Forall (fun op => assert_pid (op_pid op) = true) ops ->
  ops_fresh s ops = true ->
  exists s' evs,
    pid_ops s ops = Some (s', evs) /\
    table_ok s' /\ flags_ok s' /\ chains_ok s'.
Proof.
  revert s. induction ops as [| op ops IH]; intros s Ht Hf Hc Hops Hfresh.
  - exists s, []. auto.
  - apply Forall_cons in Hops as [Hop Hops].
    destruct (pid_op_step_spec s op Ht Hf Hop)
      as (s1 & Hstep & _ & _ & _ & Ht1 & Hf1).
    cbn [ops_fresh] in Hfresh. rewrite Hstep in Hfresh.
    apply andb_true_iff in Hfresh as [Hfresh1 Hfresh].
    pose proof (pid_op_step_chains s s1 op _ Ht Hc Hop Hfresh1 Hstep) as Hc1.
    destruct (IH s1 Ht1 Hf1 Hc1 Hops Hfresh) as (s2 & evs & Hrun & Ht2 & Hf2 & Hc2).
    eexists s2, _. cbn [pid_ops]. rewrite Hstep, Hrun. auto.
Qed.

(** C5. Subscriptions are those of outputs that are in no list at that
    time, as one struct uchain per output requires. After every such
    sequence of subscriptions and removals on a new split pipe the flag of
    every slot tells whether its collection is non-empty, and the next
    operation, on any slot, throws exactly the notification of the
    transition it causes: pid-set once when the collection goes from empty
    to non-empty, pid-unset once when it goes from non-empty to empty, and
    nothing when it stays non-empty or stays empty. The collection itself
    is appended to, or loses the subscriber; no output ever is twice in a
    list or in two lists. *)
Theorem pid_notifications_edge_triggered (ops : list pid_op) :
  Forall (fun op => assert_pid (op_pid op) = true) ops ->
  ops_fresh upipe_ts_split_alloc ops = true ->
  exists s evs,
    pid_ops upipe_ts_split_alloc ops = Some (s, evs) /\
    flags_ok s /\ chains_ok s /\
    forall op, assert_pid (op_pid op) = true -> op_fresh s op = true ->
      let pid := op_pid op in
      exists s' evs',
        pid_op_step s op = Some (s', evs') /\
        subscribers s' pid = spec_collection op (subscribers s pid) /\
        evs' = match subscribers s pid, subscribers s' pid with
               | [], _ :: _ => [EvSetPid pid]
               | _ :: _, [] => [EvUnsetPid pid]
               | [], [] | _ :: _, _ :: _ => []
               end /\
        flags_ok s' /\ chains_ok s'.
Proof.
  intros Hops Hfresh.
  destruct (pid_ops_invariant ops _ alloc_table_ok alloc_flags_ok
              alloc_chains_ok Hops Hfresh)
    as (s & evs & Hrun & Ht & Hf & Hc).
  exists s, evs. split; [exact Hrun | split; [exact Hf | split; [exact Hc |]]].
  intros op Hop Hfr pid.
  destruct (pid_op_step_spec s op Ht Hf Hop)
    as (s' & Hstep & Hcoll & _ & _ & _ & Hf').
  exists s', (spec_notifications pid (subscribers s pid) (subscribers s' pid)).
  split; [exact Hstep | split; [exact Hcoll | split; [| split; [exact Hf' |]]]].
  - unfold spec_notifications.
    destruct (subscribers s pid), (subscribers s' pid); reflexivity.
  - exact (pid_op_step_chains s s' op _ Ht Hc Hop Hfr Hstep).
Qed.

(** The PID read from a header of bytes is a 13-bit number. *)
Lemma at_byte (p_ts : list Z) (i : nat) :
  Forall (fun b => 0 <= b < 256) p_ts -> 0 <= at_ p_ts i < 256.
Proof.
  intros Hb. unfold at_.
  destruct (nth_in_or_default i p_ts 0) as [Hin | ->]; [| lia].
  rewrite List.Forall_forall in Hb. apply Hb. exact Hin.
Qed.

Lemma ts_get_pid_range (p_ts : list Z) :
  Forall (fun b => 0 <= b < 256) p_ts -> assert_pid (ts_get_pid p_ts) = true.
Proof.
  intros Hb. apply assert_pid_range. unfold ts_get_pid, MAX_PIDS.
  pose proof (at_byte p_ts 2 Hb) as H2.
  set (hi := Z.shiftl (Z.land (at_ p_ts 1) 0x1f) 8).
  assert (Hhi : 0 <= hi <= 7936).
  { subst hi. rewrite Z.shiftl_mul_pow2 by lia.
    change 0x1f with (Z.ones 5). rewrite Z.land_ones by lia.
    pose proof (Z.mod_pos_bound (at_ p_ts 1) (2 ^ 5) ltac:(lia)). lia. }
  split.
  - apply Z.lor_nonneg. lia.
  - pose proof (Z.add_lor_land hi (at_ p_ts 2)) as Hadd.
    assert (0 <= Z.land hi (at_ p_ts 2)) by (apply Z.land_nonneg; lia).
    lia.
Qed.

(** The loop over a collection whose first outputs all get their duplicate. *)
Lemma fan_out_prefix (dup_ok : nat -> bool) (u : uref) (l : ulist) :
  forall (n : nat) (rest : ulist),
    rest <> [] ->
    (forall i, (i < length l)%nat -> dup_ok (n + i)%nat = true) ->
    fan_out dup_ok n (l ++ rest) u =
      imap (fun i x => EvOutput x (Duplicate (n + i)) u) l ++
      fan_out dup_ok (n + length l) rest u.
Proof.
  induction l as [| x l IH]; intros n rest Hrest Hdup.
  - cbn. rewrite Nat.add_0_r. reflexivity.
  - cbn [app fan_out length].
    destruct (l ++ rest) as [| y l'] eqn:E.
    { apply app_eq_nil in E as [_ ->]. contradiction. }
    rewrite <- E.
    replace (dup_ok n) with true
      by (symmetry; rewrite <- (Nat.add_0_r n); apply Hdup; cbn; lia).
    rewrite IH; [| exact Hrest | intros i Hi;
      replace (S n + i)%nat with (n + S i)%nat by lia; apply Hdup; cbn; lia].
    rewrite imap_cons. cbn [app]. rewrite Nat.add_0_r.
    replace (n + S (length l))%nat with (S n + length l)%nat by lia.
    f_equal. f_equal. apply imap_ext. intros i y' _. cbn.
    replace (n + S i)%nat with (S (n + i)) by lia. reflexivity.
Qed.

(** upipe_ts_split_work on a packet whose header can be read runs the loop on
    the collection of the packet's PID. *)
Lemma work_runs_fan_out (s : upipe_ts_split) (dup_ok : nat -> bool) (u : uref)
    (p_ts : list Z) :
  table_ok s ->
  ubuf u = Some p_ts ->
  (4 <= length p_ts)%nat ->
  Forall (fun b => 0 <= b < 256) p_ts ->
  upipe_ts_split_work s dup_ok u =
    Some (fan_out dup_ok 0 (subscribers s (ts_get_pid p_ts)) u).
Proof.
  intros Ht Hb Hlen Hbytes. unfold upipe_ts_split_work.
  rewrite (peek_header u p_ts Hb Hlen).
  destruct (header_fields p_ts) as (_ & _ & _ & ->).
  destruct (pid_slot_in_table s _ Ht (ts_get_pid_range p_ts Hbytes)) as [p Hs].
  rewrite (subscribers_slot s _ p Hs), Hs. reflexivity.
Qed.

(** C2. A packet whose header can be read goes to the outputs registered for
    its PID, in registration order (no uref_dup failing): with none the uref
    is freed and nothing is output; with N of them there are exactly N
    outputs, every one of the input uref's content, the first N-1 through a
    duplicate of their own and the last through the uref that came in. *)
Theorem work_fan_out (s : upipe_ts_split) (dup_ok : nat -> bool) (u : uref)
    (p_ts : list Z) :
  table_ok s ->
  ubuf u = Some p_ts ->
  (4 <= length p_ts)%nat ->
  Forall (fun b => 0 <= b < 256) p_ts ->
  let l := subscribers s (ts_get_pid p_ts) in
  (forall i, (i + 1 < length l)%nat -> dup_ok i = true) ->
  exists evs,
    upipe_ts_split_work s dup_ok u = Some evs /\
    (l = [] -> evs = [EvFree u]) /\
    (forall l' last, l = l' ++ [last] ->
       evs = imap (fun i output => EvOutput output (Duplicate i) u) l' ++
             [EvOutput last Original u] /\
       length evs = length l).
Proof.
  intros Ht Hb Hlen Hbytes l Hdup.
  exists (fan_out dup_ok 0 l u).
  split; [exact (work_runs_fan_out s dup_ok u p_ts Ht Hb Hlen Hbytes) |].
  split.
  - intros ->. reflexivity.
  - intros l' last E. rewrite E in *.
    rewrite fan_out_prefix.
    + split; [reflexivity |].
      rewrite !length_app, length_imap. reflexivity.
    + discriminate.
    + intros i Hi. apply Hdup. rewrite length_app. cbn. lia.
Qed.

(** C7. When the collection of the packet's PID has N >= 2 outputs and the
    uref_dup for the k-th of them, k < N, fails after the k-1 before it
    succeeded, the call outputs the k-1 duplicates already made, then frees
    the uref that came in and throws the allocation error; no later output
    gets anything. The split structure is not written: the input handler
    returns it as it was, and handles the urefs that follow with it. *)
Theorem work_dup_failure (s : upipe_ts_split) (dup_ok : nat -> bool) (u : uref)
    (p_ts : list Z) (served : ulist) (failed : handle) (unserved : ulist) :
  table_ok s ->
  ubuf u = Some p_ts ->
  (4 <= length p_ts)%nat ->
  Forall (fun b => 0 <= b < 256) p_ts ->
  subscribers s (ts_get_pid p_ts) = served ++ failed :: unserved ->
  unserved <> [] ->
  (forall i, (i < length served)%nat -> dup_ok i = true) ->
  dup_ok (length served) = false ->
  let evs := imap (fun i output => EvOutput output (Duplicate i) u) served ++
             [EvFree u; EvAError] in
  upipe_ts_split_work s dup_ok u = Some evs /\
  (flow_def_ok s = true -> f_def u = None ->
   upipe_ts_split_input s dup_ok u = Some (s, evs) /\
   forall rest,
     upipe_ts_split_inputs s ((dup_ok, u) :: rest) =
     match upipe_ts_split_inputs s rest with
     | Some (s', evs') => Some (s', evs ++ evs')
     | None => None
     end).
Proof.
  intros Ht Hb Hlen Hbytes Hl Hun Hdup Hfail evs.
  assert (Hwork : upipe_ts_split_work s dup_ok u = Some evs).
  { rewrite (work_runs_fan_out s dup_ok u p_ts Ht Hb Hlen Hbytes), Hl.
    rewrite fan_out_prefix; [| discriminate | exact Hdup].
    cbn [Nat.add fan_out]. rewrite Hfail.
    destruct unserved; [contradiction | reflexivity]. }
  split; [exact Hwork |].
  intros Hok Hdef.
  assert (Hin : upipe_ts_split_input s dup_ok u = Some (s, evs)).
  { unfold upipe_ts_split_input, uref_flow_get_def.
    rewrite Hdef, Hok, Hb, Hwork. reflexivity. }
  split; [exact Hin |].
  intros rest. cbn [upipe_ts_split_inputs]. rewrite Hin. reflexivity.
Qed.

Lemma input_data_not_ready (s : upipe_ts_split) (dup_ok : nat -> bool)
    (u : uref) :
  flow_def_ok s = false -> f_def u = None ->
  upipe_ts_split_input s dup_ok u = Some (s, flow_def_drop u).
Proof.
  intros Hok Hdef. unfold upipe_ts_split_input, uref_flow_get_def.
  rewrite Hdef, Hok. reflexivity.
Qed.

Lemma inputs_data_not_ready (s : upipe_ts_split)
    (l : list ((nat -> bool) * uref)) :
  flow_def_ok s = false ->
  Forall (fun du => f_def (snd du) = None) l ->
  upipe_ts_split_inputs s l =
    Some (s, flat_map (fun du => flow_def_drop (snd du)) l).
Proof.
  intros Hok Hl. induction Hl as [| [dup_ok u] l Hu _ IH]; [reflexivity |].
  cbn [upipe_ts_split_inputs flat_map snd] in *.
  rewrite (input_data_not_ready s dup_ok u Hok Hu), IH. reflexivity.
Qed.

(** C9. While flow_def_ok is false no data uref is forwarded. A flow
    definition whose tag does not start with "block.mpegts." is refused with
    a flow-definition error and sets the flag to false; from then on every
    data uref is freed with a flow-definition error, the pipe staying as it
    is, until a flow definition with a matching tag comes, which sets the
    flag to true; a data packet after that goes through
    upipe_ts_split_work. *)
Theorem input_flow_def_ready (s : upipe_ts_split) (dup_ok : nat -> bool) :
  let not_ready := {| flow_def_ok := false; pids := pids s |} in
  let ready := {| flow_def_ok := true; pids := pids s |} in
  (forall u, flow_def_ok s = false ->
     exists s' evs, upipe_ts_split_input s dup_ok u = Some (s', evs) /\
                    existsb forwards evs = false) /\
  (forall u def, f_def u = Some def ->
     String.prefix EXPECTED_FLOW_DEF def = false ->
     upipe_ts_split_input s dup_ok u
       = Some (not_ready, [EvFree u; EvFlowDefError])) /\
  (forall l, Forall (fun du => f_def (snd du) = None) l ->
     upipe_ts_split_inputs not_ready l
       = Some (not_ready, flat_map (fun du => [EvFree (snd du); EvFlowDefError]) l)) /\
  (forall u def, f_def u = Some def ->
     String.prefix EXPECTED_FLOW_DEF def = true ->
     upipe_ts_split_input s dup_ok u = Some (ready, [EvFree u])) /\
  (forall u b, f_def u = None -> ubuf u = Some b ->
     upipe_ts_split_input ready dup_ok u =
       match upipe_ts_split_work ready dup_ok u with
       | Some evs => Some (ready, evs)
       | None => None
       end).
Proof.
  intros not_ready ready.
  split; [| split; [| split; [| split]]].
  - intros u Hok. unfold upipe_ts_split_input, uref_flow_get_def.
    destruct (f_def u) as [def |].
    + destruct (ubase_ncmp def EXPECTED_FLOW_DEF); eauto.
    + rewrite Hok. eauto.
  - intros u def Hdef Hpre. unfold upipe_ts_split_input, uref_flow_get_def,
      ubase_ncmp. rewrite Hdef, Hpre. reflexivity.
  - intros l Hl. apply (inputs_data_not_ready not_ready l eq_refl Hl).
  - intros u def Hdef Hpre. unfold upipe_ts_split_input, uref_flow_get_def,
      ubase_ncmp. rewrite Hdef, Hpre. reflexivity.
  - intros u b Hdef Hb. unfold upipe_ts_split_input, uref_flow_get_def.
    rewrite Hdef, Hb. reflexivity.
Qed.

(** Where the code performs the rejection of an invalid PID: on an output
    subpipe that holds no flow definition, hence is in no slot, a flow
    definition whose PID is 8192 or more is refused: the call returns false,
    throws nothing, and leaves the split structure and the subpipe as they
    were. *)
Lemma set_flow_def_invalid_pid (o : upipe_ts_split_output)
    (s : upipe_ts_split) (dup_ok : bool) (flow_def_new : uref) (pid : Z) :
  flow_def o = None ->
  uref_ts_flow_get_pid flow_def_new = Some pid ->
  MAX_PIDS <= pid ->
  upipe_ts_split_output_set_flow_def o s dup_ok flow_def_new
    = Some (false, o, s, []).
Proof.
  intros Hnone Hpid Hmax. unfold upipe_ts_split_output_set_flow_def.
  rewrite Hnone, Hpid.
  destruct (Z.leb_spec MAX_PIDS pid); [reflexivity | lia].
Qed.

End SplitProps.

(** ** Worked examples for the PID demultiplexer *)

Section SplitExamples.
Import Upipe TS Split Sample.

(** Two outputs on PID 0x100, then both removed: pid-set once, at the first
    subscription, and pid-unset once, at the second removal. *)
Example pid_ops_two_outputs :
  option_map snd
    (pid_ops upipe_ts_split_alloc
       [Subscribe 256 1; Subscribe 256 2; Unsubscribe 256 1; Unsubscribe 256 2])
  = Some [EvSetPid 256; EvUnsetPid 256].
Proof. vm_compute. reflexivity. Qed.

(** A removal from an empty slot throws nothing. *)
Example pid_ops_remove_nothing :
  option_map snd (pid_ops upipe_ts_split_alloc [Unsubscribe 256 1]) = Some [].
Proof. vm_compute. reflexivity. Qed.

Lemma pid_notifications_edge_triggered_witness :
  exists s evs,
    pid_ops upipe_ts_split_alloc
      [Subscribe 256 1; Subscribe 256 2; Unsubscribe 256 1] = Some (s, evs) /\
    flags_ok s /\ chains_ok s /\
    exists s' evs',
      pid_op_step s (Unsubscribe 256 2) = Some (s', evs') /\
      evs' = match subscribers s 256, subscribers s' 256 with
             | [], _ :: _ => [EvSetPid 256]
             | _ :: _, [] => [EvUnsetPid 256]
             | _, _ => []
             end.
Proof.
  destruct (pid_notifications_edge_triggered
              [Subscribe 256 1; Subscribe 256 2; Unsubscribe 256 1])
    as (s & evs & Hrun & Hf & Hc & Hstep).
  - repeat constructor.
  - vm_compute. reflexivity.
  - exists s, evs. split; [exact Hrun | split; [exact Hf | split; [exact Hc |]]].
    destruct (Hstep (Unsubscribe 256 2) eq_refl eq_refl)
      as (s' & evs' & H1 & _ & H2 & _).
    exists s', evs'. split; assumption.
Defined.

(** Three outputs on PID 0x100 and a packet of that PID. *)
Lemma work_fan_out_witness :
  let u := block (packet [0x47; 0x01; 0x00; 0x10]) in
  upipe_ts_split_work (split_with [1; 2; 3]%nat true) (always true) u
  = Some [EvOutput 1 (Duplicate 0) u; EvOutput 2 (Duplicate 1) u;
          EvOutput 3 Original u].
Proof.
  intros u.
  destruct (work_fan_out (split_with [1; 2; 3]%nat true) (always true) u
              (packet [0x47; 0x01; 0x00; 0x10]))
    as (evs & Hwork & _ & Hl).
  - vm_compute. reflexivity.
  - reflexivity.
  - vm_compute. lia.
  - apply packet_well_formed; [vm_compute; lia | repeat constructor; lia |].
    vm_compute. discriminate.
  - reflexivity.
  - destruct (Hl [1; 2]%nat 3%nat eq_refl) as [-> _]. exact Hwork.
Defined.

(** No output on the packet's PID: the packet is freed. *)
Example work_no_output :
  upipe_ts_split_work (split_with [1; 2; 3]%nat true) (always true)
    (block (packet [0x47; 0x01; 0x01; 0x10]))
  = Some [EvFree (block (packet [0x47; 0x01; 0x01; 0x10]))].
Proof. vm_compute. reflexivity. Qed.

(** A header that cannot be read: allocation error thrown, packet freed. *)
Example work_short :
  upipe_ts_split_work (split_with [1]%nat true) (always true)
    (block [0x47; 0x01; 0x00])
  = Some [EvAError; EvFree (block [0x47; 0x01; 0x00])].
Proof. vm_compute. reflexivity. Qed.

(** Three outputs, the second uref_dup fails. *)
Lemma work_dup_failure_witness :
  let u := block (packet [0x47; 0x01; 0x00; 0x10]) in
  upipe_ts_split_work (split_with [1; 2; 3]%nat true) (fails_at 1) u
  = Some [EvOutput 1 (Duplicate 0) u; EvFree u; EvAError].
Proof.
  intros u.
  apply (work_dup_failure (split_with [1; 2; 3]%nat true) (fails_at 1) u
           (packet [0x47; 0x01; 0x00; 0x10]) [1]%nat 2%nat [3]%nat).
  - vm_compute. reflexivity.
  - reflexivity.
  - vm_compute. lia.
  - apply packet_well_formed; [vm_compute; lia | repeat constructor; lia |].
    vm_compute. discriminate.
  - vm_compute. reflexivity.
  - discriminate.
  - intros i Hi. destruct i; [reflexivity | cbn in Hi; lia].
  - reflexivity.
Defined.

(** A flow definition for another format, then a packet, then the right
    format, then the packet again. *)
Lemma input_flow_def_ready_witness :
  upipe_ts_split_input (split_with [1]%nat true) (always true)
    (flow_tag "block.h264.")
  = Some (split_with [1]%nat false,
          [EvFree (flow_tag "block.h264."); EvFlowDefError]).
Proof.
  exact (proj1 (proj2
           (input_flow_def_ready (split_with [1]%nat true) (always true)))
           (flow_tag "block.h264.") "block.h264."%string eq_refl eq_refl).
Defined.

Example inputs_flow_def_sequence :
  let u := block (packet [0x47; 0x01; 0x00; 0x10]) in
  option_map snd
    (upipe_ts_split_inputs (split_with [1]%nat true)
       [(always true, flow_tag "block.h264."); (always true, u);
        (always true, flow_tag "block.mpegts."); (always true, u)])
  = Some [EvFree (flow_tag "block.h264."); EvFlowDefError;
          EvFree u; EvFlowDefError;
          EvFree (flow_tag "block.mpegts.");
          EvOutput 1 Original u].
Proof. vm_compute. reflexivity. Qed.

(** PID 8192 on a new output subpipe. *)
Lemma set_flow_def_invalid_pid_witness :
  upipe_ts_split_output_set_flow_def (new_output 7) upipe_ts_split_alloc true
    (flow_pid 8192)
  = Some (false, new_output 7, upipe_ts_split_alloc, []).
Proof.
  apply (set_flow_def_invalid_pid (new_output 7) upipe_ts_split_alloc true
           (flow_pid 8192) 8192).
  - reflexivity.
  - reflexivity.
  - vm_compute. discriminate.
Defined.

(** C6. On a registered output subpipe the code does not reach the
    rejection. Output 7 subscribes to PID 0x100 on a new split pipe, which
    puts it in slot 0x100 and stores its flow definition. Given then a flow
    definition with PID 8192, the handler first calls
    upipe_ts_split_pid_unset for the stored PID, and hands it the struct
    upipe of the subpipe (line 189), from which upipe_ts_split_from_upipe
    does not give the split structure: the call has no defined result, where
    the claim has a refusal that leaves every slot as it was. Made with the
    struct upipe of the split pipe, as lines 205 and 272-274 make their
    calls, the same removal is defined. *)
Theorem set_flow_def_invalid_pid_registered :
  let o := {| self := 7%nat; flow_def := Some (flow_pid 256) |} in
  let s := split_with [7]%nat false in
  upipe_ts_split_output_set_flow_def (new_output 7) upipe_ts_split_alloc true
    (flow_pid 256) = Some (true, o, s, [EvSetPid 256]) /\
  upipe_ts_split_output_set_flow_def o s true (flow_pid 8192) = None /\
  upipe_ts_split_pid_unset (upipe_ts_split_output_to_upipe 7) s 256 7%nat
    = None /\
  upipe_ts_split_pid_unset upipe_ts_split_to_upipe s 256 7%nat
    = Some (upipe_ts_split_alloc, [EvUnsetPid 256]).
Proof. repeat split; vm_compute; reflexivity. Qed.

(** The same removal through the struct upipe of the split pipe, as
    upipe_ts_split_output_release makes it (lines 272-274): the slot is
    emptied and pid-unset is thrown. *)
Example pid_unset_registered :
  upipe_ts_split_pid_unset upipe_ts_split_to_upipe (split_with [7]%nat false)
    256 7%nat
  = Some (upipe_ts_split_alloc, [EvUnsetPid 256]).
Proof. vm_compute. reflexivity. Qed.

End SplitExamples.

(** * Further properties of the descrambling pipe *)

Section DvbcsaMoreProps.
Import Upipe TS Dvbcsa DvbcsaMore.
Context {L : libdvbcsa} {C : dvbcsa_common}.

Lemma peek_inv (u : uref) (hdr : list Z) :
  uref_block_peek u 0 TS_HEADER_SIZE = Some hdr ->
  exists b, ubuf u = Some b /\ (4 <= length b)%nat /\ hdr = firstn 4 b.
Proof.
  unfold uref_block_peek, TS_HEADER_SIZE. destruct (ubuf u) as [b |]; [| discriminate].
  destruct (Nat.leb_spec (0 + 4) (length b)); [| discriminate].
  intros [= <-]. exists b. repeat split. lia.
Qed.

Lemma extract_short (u : uref) (b : list Z) (offset : nat) :
  ubuf u = Some b -> (length b <= offset)%nat ->
  uref_block_extract u offset = None.
Proof.
  intros Hb Hlen. unfold uref_block_extract, uref_block_peek. rewrite Hb.
  destruct (Nat.leb_spec (offset + 1) (length b)); [lia | reflexivity].
Qed.

(** What the adaptation field step gives when it does not return. *)
Lemma adaptation_step_inv (u : uref) (b : list Z) (n : Z) :
  ubuf u = Some b -> bytes b -> (4 <= length b)%nat ->
  adaptation_step u (ts_has_adaptation b) (Z.of_nat TS_HEADER_SIZE) = inr n ->
  n = Z.of_nat (payload_start b) /\
  (ts_has_adaptation b = true ->
   (5 <= length b)%nat /\ ts_af_length b < 183).
Proof.
  intros Hb Hbytes Hlen. unfold adaptation_step, payload_start.
  change (Z.to_nat (Z.of_nat TS_HEADER_SIZE)) with 4%nat.
  destruct (ts_has_adaptation b).
  - destruct (Nat.le_gt_cases (length b) 4) as [Hs | Hl].
    + rewrite (extract_short u b 4 Hb Hs). discriminate.
    + rewrite (extract_at u b 4 Hb Hl). fold (ts_af_length b).
      pose proof (at_byte b 4 Hbytes) as Haf. fold (ts_af_length b) in Haf.
      destruct (Z.leb_spec 183 (ts_af_length b)); [discriminate |].
      intros [= <-]. split; [unfold TS_HEADER_SIZE; lia |].
      intros _. split; lia.
  - intros [= <-]. split; [reflexivity | discriminate].
Qed.

(** The three ways the input handler ends on a buffer of bytes: the uref is
    output as it is, or it is freed after a log, or it is descrambled. *)
Lemma dec_input_inv (upipe : upipe_dvbcsa_dec) (a : alloc) (u : uref)
    (evs : list event) :
  (forall b, ubuf u = Some b -> bytes b) ->
  upipe_dvbcsa_dec_input upipe a u = Some evs ->
  (evs = [EvOutput u] /\
   (key upipe = None \/
    exists b, ubuf u = Some b /\ (4 <= length b)%nat /\
      (ts_get_scrambling b <> 2 \/ ts_has_payload b = false \/
       upipe_dvbcsa_common_check_pid (common upipe) (ts_get_pid b) = false)))
  \/
  (exists level msg u', evs = [EvLog level msg; EvFree u'] /\
                        key upipe <> None)
  \/
  (exists k b,
     key upipe = Some k /\ ubuf u = Some b /\
     ts_get_scrambling b = 2 /\ ts_has_payload b = true /\
     upipe_dvbcsa_common_check_pid (common upipe) (ts_get_pid b) = true /\
     (4 <= payload_start b <= length b)%nat /\
     (ts_has_adaptation b = true ->
      (5 <= length b)%nat /\ ts_af_length b < 183) /\
     ubuf_block_copy_ok a = true /\ ubuf_block_write_ok a = true /\
     evs = [EvDecrypt k (skipn (payload_start b) b);
            EvOutput (uref_attach_ubuf u
              (firstn (payload_start b) (ts_set_scrambling b 0) ++
               dvbcsa_decrypt k (skipn (payload_start b) b)))]).
Proof.
  intros Hbytes. unfold upipe_dvbcsa_dec_input.
  destruct (key upipe) as [k |] eqn:Hk;
    [| intros [= <-]; left; split; [reflexivity | left; reflexivity]].
  destruct (uref_block_peek u 0 TS_HEADER_SIZE) as [hdr |] eqn:Hpeek;
    [| intros [= <-]; right; left; eauto 6 using eq_refl].
  - apply peek_inv in Hpeek as (b & Hb & Hlen & ->).
    destruct (header_fields b) as (-> & -> & -> & ->).
    specialize (Hbytes b Hb).
    destruct (Z.eqb_spec (ts_get_scrambling b) 2) as [Hsc | Hsc]; cbn [negb orb];
      [| intros [= <-]; left; split; [reflexivity | right; eauto 8]].
    destruct (ts_has_payload b) eqn:Hpl; cbn [negb orb];
      [| intros [= <-]; left; split; [reflexivity | right; eauto 8]].
    destruct (upipe_dvbcsa_common_check_pid (common upipe) (ts_get_pid b))
      eqn:Hpid; cbn [negb];
      [| intros [= <-]; left; split; [reflexivity | right; eauto 8]].
    destruct (adaptation_step u (ts_has_adaptation b) (Z.of_nat TS_HEADER_SIZE))
      as [evs' | n] eqn:Hstep.
    { intros [= <-]. right; left. unfold adaptation_step in Hstep.
      destruct (ts_has_adaptation b); [| discriminate].
      destruct (uref_block_extract u _) as [af |].
      - destruct (183 <=? af); [| discriminate].
        injection Hstep as <-. eauto 6.
      - injection Hstep as <-. eauto 6. }
    apply (adaptation_step_inv u b n Hb Hbytes Hlen) in Hstep as [-> Haf].
    destruct (ubuf_block_copy_ok a); cbn [negb];
      [| intros [= <-]; right; left; eauto 6].
    rewrite Hb.
    destruct (ubuf_block_write_ok a); cbn [negb];
      [| intros [= <-]; right; left; eauto 6].
    destruct (Z.ltb_spec (Z.of_nat (length b) - Z.of_nat (payload_start b)) 0);
      [discriminate |].
    rewrite Nat2Z.id. intros [= <-]. right; right. exists k, b.
    assert (H4 : (4 <= payload_start b)%nat)
      by (unfold payload_start; destruct (ts_has_adaptation b); lia).
    rewrite drop_set_scrambling by exact H4.
    repeat split; try assumption; try lia; apply Haf; assumption.
Qed.

(** The bytes of a descrambled packet: same length, and before the payload
    the bytes of the input, byte 3 keeping its six low bits. *)
Lemma descrambled_bytes (b plain : list Z) (n : nat) :
  (4 <= n <= length b)%nat ->
  length plain = (length b - n)%nat ->
  let b' := firstn n (ts_set_scrambling b 0) ++ plain in
  length b' = length b /\
  forall i, (i < n)%nat ->
    at_ b' i = if Nat.eqb i 3 then Z.land (at_ b 3) 0x3f else at_ b i.
Proof.
  intros Hn Hplain b'.
  assert (Hfl : length (firstn n (ts_set_scrambling b 0)) = n).
  { rewrite length_firstn. unfold ts_set_scrambling.
    rewrite length_insert. lia. }
  split.
  - subst b'. rewrite length_app, Hfl, Hplain. lia.
  - intros i Hi. subst b'. unfold at_ at 1. rewrite app_nth1 by lia.
    fold (at_ (firstn n (ts_set_scrambling b 0)) i).
    rewrite at_firstn by lia. apply at_set_scrambling_0. lia.
Qed.

Lemma land_low_six (x m : Z) :
  Z.land 0x3f m = m -> Z.land (Z.land x 0x3f) m = Z.land x m.
Proof. intros Hm. rewrite <- Z.land_assoc, Hm. reflexivity. Qed.

(** X1. Whenever the input handler returns, it has given the uref away
    exactly once: either one output or one uref_free, never both and never
    neither; and the cipher is called at most once, only in a call that
    ends with an output. *)
Theorem dec_input_consumes_once (upipe : upipe_dvbcsa_dec) (a : alloc)
    (u : uref) (evs : list event) :
  upipe_dvbcsa_dec_input upipe a u = Some evs ->
  (count is_output evs + count is_free evs = 1)%nat /\
  (count is_decrypt evs <= count is_output evs)%nat.
Proof.
  unfold upipe_dvbcsa_dec_input, adaptation_step.
  repeat case_match; intros [= <-]; simplify_eq; cbn; lia.
Qed.

(** X2. A packet that leaves the pipe has the attributes of the one that
    came in and a buffer of the same length with the same PID, payload and
    adaptation flags, continuity counter and first three bytes; its
    scrambling control is that of the input, the buffer being untouched, or
    0. *)
Theorem dec_input_output_keeps_header (upipe : upipe_dvbcsa_dec) (a : alloc)
    (u out : uref) (evs : list event) :
  (forall b, ubuf u = Some b -> bytes b) ->
  upipe_dvbcsa_dec_input upipe a u = Some evs ->
  In (EvOutput out) evs ->
  f_def out = f_def u /\ t_pid out = t_pid u /\
  (out = u \/
   exists b b', ubuf u = Some b /\ ubuf out = Some b' /\
     length b' = length b /\
     ts_get_pid b' = ts_get_pid b /\
     ts_has_payload b' = ts_has_payload b /\
     ts_has_adaptation b' = ts_has_adaptation b /\
     Z.land (at_ b' 3) 0x0f = Z.land (at_ b 3) 0x0f /\
     (forall i, (i < 3)%nat -> at_ b' i = at_ b i) /\
     ts_get_scrambling b' = 0).
Proof.
  intros Hbytes Hrun Hin.
  destruct (dec_input_inv upipe a u evs Hbytes Hrun)
    as [[-> _] | [(lvl & msg & u' & -> & _) | (k & b & Hd)]].
  - destruct Hin as [[= <-] | []]. auto.
  - destruct Hin as [[=] | [[=] | []]].
  - destruct Hd as (_ & Hb & _ & _ & _ & Hn & _ & _ & _ & ->).
    destruct Hin as [[=] | [[= <-] | []]].
    split; [reflexivity | split; [reflexivity | right]].
    eexists b, _. split; [exact Hb | split; [reflexivity |]].
    destruct (descrambled_bytes b
                (dvbcsa_decrypt k (skipn (payload_start b) b))
                (payload_start b) Hn) as [Hlen Hat].
    { rewrite dvbcsa_decrypt_length, length_skipn. reflexivity. }
    split; [exact Hlen |].
    unfold ts_get_pid, ts_has_payload, ts_has_adaptation, ts_get_scrambling.
    rewrite !Hat by lia. cbn [Nat.eqb].
    rewrite !land_low_six by reflexivity.
    repeat split; try reflexivity.
    + intros i Hi. rewrite Hat by lia.
      destruct (Nat.eqb_spec i 3); [lia | reflexivity].
    + apply scrambling_cleared.
Qed.

(** X3. The cipher is called only on the decryption path: a call of the
    cipher in the trace means that the key it is given is the stored one,
    that the packet has scrambling control 2, the payload flag and a
    whitelisted PID, that the buffer copy was granted, and that the bytes
    handed over are those from payload_start to the end of the buffer. *)
Theorem dec_input_cipher_only_on_path (upipe : upipe_dvbcsa_dec) (a : alloc)
    (u : uref) (evs : list event) (k : dvbcsa_key_t) (data : list Z) :
  (forall b, ubuf u = Some b -> bytes b) ->
  upipe_dvbcsa_dec_input upipe a u = Some evs ->
  In (EvDecrypt k data) evs ->
  exists b,
    ubuf u = Some b /\ key upipe = Some k /\
    ts_get_scrambling b = 2 /\ ts_has_payload b = true /\
    upipe_dvbcsa_common_check_pid (common upipe) (ts_get_pid b) = true /\
    (ts_has_adaptation b = true -> ts_af_length b < 183) /\
    ubuf_block_copy_ok a = true /\
    data = skipn (payload_start b) b.
Proof.
  intros Hbytes Hrun Hin.
  destruct (dec_input_inv upipe a u evs Hbytes Hrun)
    as [[-> _] | [(lvl & msg & u' & -> & _) | (k' & b & Hd)]].
  - destruct Hin as [[=] | []].
  - destruct Hin as [[=] | [[=] | []]].
  - destruct Hd as (Hk & Hb & Hsc & Hpl & Hpid & _ & Haf & Hcopy & _ & ->).
    destruct Hin as [[= <- <-] | [[=] | []]].
    exists b. repeat split; try assumption. intros Had. apply Haf, Had.
Qed.

(** X4. Descrambling is not done twice: a packet that the pipe has output,
    given to the same pipe again, is output as it is. *)
Theorem dec_input_idempotent (upipe : upipe_dvbcsa_dec) (a a' : alloc)
    (u out : uref) (evs : list event) :
  (forall b, ubuf u = Some b -> bytes b) ->
  upipe_dvbcsa_dec_input upipe a u = Some evs ->
  In (EvOutput out) evs ->
  upipe_dvbcsa_dec_input upipe a' out = Some [EvOutput out].
Proof.
  intros Hbytes Hrun Hin.
  destruct (dec_input_inv upipe a u evs Hbytes Hrun)
    as [[-> Hwhy] | [(lvl & msg & u' & -> & _) | (k & b & Hd)]].
  - destruct Hin as [[= <-] | []].
    destruct Hwhy as [Hk | (b & Hb & Hlen & Hguard)].
    + unfold upipe_dvbcsa_dec_input. rewrite Hk. reflexivity.
    + apply (dec_input_guard upipe a' u b Hb Hlen). tauto.
  - destruct Hin as [[=] | [[=] | []]].
  - destruct Hd as (_ & Hb & _ & _ & _ & Hn & _ & _ & _ & ->).
    destruct Hin as [[=] | [[= <-] | []]].
    destruct (descrambled_bytes b
                (dvbcsa_decrypt k (skipn (payload_start b) b))
                (payload_start b) Hn) as [Hlen Hat].
    { rewrite dvbcsa_decrypt_length, length_skipn. reflexivity. }
    eapply dec_input_guard; [reflexivity | |].
    + rewrite Hlen. lia.
    + left. unfold ts_get_scrambling. rewrite Hat by lia. cbn [Nat.eqb].
      rewrite scrambling_cleared. lia.
Qed.

(** The input handler up to the adaptation field step, on the decryption
    path. *)
Lemma dec_input_on_path (upipe : upipe_dvbcsa_dec) (a : alloc) (u : uref)
    (b : list Z) (k : dvbcsa_key_t) :
  key upipe = Some k ->
  ubuf u = Some b ->
  (4 <= length b)%nat ->
  ts_get_scrambling b = 2 ->
  ts_has_payload b = true ->
  upipe_dvbcsa_common_check_pid (common upipe) (ts_get_pid b) = true ->
  upipe_dvbcsa_dec_input upipe a u =
    match adaptation_step u (ts_has_adaptation b) (Z.of_nat TS_HEADER_SIZE) with
    | inl evs => Some evs
    | inr ts_header_size =>
        if negb (ubuf_block_copy_ok a) then
          Some [EvLog ULOG_ERROR "fail to allocate buffer"; EvFree u]
        else if negb (ubuf_block_write_ok a) then
          Some [EvLog ULOG_ERROR "fail to write buffer";
                EvFree (uref_attach_ubuf u b)]
        else if Z.of_nat (length b) - ts_header_size <? 0 then None
        else
          let n := Z.to_nat ts_header_size in
          let ts := ts_set_scrambling b 0 in
          Some [EvDecrypt k (skipn n ts);
                EvOutput (uref_attach_ubuf u
                            (firstn n ts ++ dvbcsa_decrypt k (skipn n ts)))]
    end.
Proof.
  intros Hk Hb Hlen Hsc Hpl Hpid. unfold upipe_dvbcsa_dec_input.
  rewrite Hk, (peek_header u b Hb Hlen).
  destruct (header_fields b) as (-> & -> & -> & ->).
  rewrite Hsc, Hpl, Hpid, Hb. reflexivity.
Qed.

(** X5. On the decryption path, when the copy of the buffer is refused, or
    its write mapping is, the packet is freed with an error: nothing is
    output and the cipher is not called. *)
Theorem dec_input_alloc_failure (upipe : upipe_dvbcsa_dec) (a : alloc)
    (u : uref) (b : list Z) (k : dvbcsa_key_t) :
  key upipe = Some k ->
  ubuf u = Some b ->
  (4 <= length b)%nat ->
  ts_get_scrambling b = 2 ->
  ts_has_payload b = true ->
  upipe_dvbcsa_common_check_pid (common upipe) (ts_get_pid b) = true ->
  (ts_has_adaptation b = true -> (5 <= length b)%nat /\ ts_af_length b < 183) ->
  ubuf_block_copy_ok a = false \/ ubuf_block_write_ok a = false ->
  exists msg u',
    upipe_dvbcsa_dec_input upipe a u = Some [EvLog ULOG_ERROR msg; EvFree u'] /\
    msg = (if ubuf_block_copy_ok a then "fail to write buffer"
           else "fail to allocate buffer")%string.
Proof.
  intros Hk Hb Hlen Hsc Hpl Hpid Haf Hfail.
  rewrite (dec_input_on_path upipe a u b k Hk Hb Hlen Hsc Hpl Hpid).
  assert (Hstep : exists n, adaptation_step u (ts_has_adaptation b)
                              (Z.of_nat TS_HEADER_SIZE) = inr n).
  { unfold adaptation_step. destruct (ts_has_adaptation b); [| eauto].
    destruct (Haf eq_refl) as [H5 H183].
    change (Z.to_nat (Z.of_nat TS_HEADER_SIZE)) with 4%nat.
    rewrite (extract_at u b 4 Hb) by lia. fold (ts_af_length b).
    destruct (Z.leb_spec 183 (ts_af_length b)); [lia | eauto]. }
  destruct Hstep as [n ->].
  destruct (ubuf_block_copy_ok a); cbn [negb]; [| eauto].
  destruct Hfail as [[=] | ->]. cbn [negb]. eauto.
Qed.

(** X6. On the decryption path, a buffer that has the adaptation flag set
    and ends with the header is freed with an error: its length byte cannot
    be read. Nothing is output. *)
Theorem dec_input_no_length_byte (upipe : upipe_dvbcsa_dec) (a : alloc)
    (u : uref) (b : list Z) (k : dvbcsa_key_t) :
  key upipe = Some k ->
  ubuf u = Some b ->
  length b = 4%nat ->
  ts_get_scrambling b = 2 ->
  ts_has_payload b = true ->
  upipe_dvbcsa_common_check_pid (common upipe) (ts_get_pid b) = true ->
  ts_has_adaptation b = true ->
  upipe_dvbcsa_dec_input upipe a u =
    Some [EvLog ULOG_ERROR "fail to extract adaptation field length";
          EvFree u].
Proof.
  intros Hk Hb Hlen Hsc Hpl Hpid Had.
  rewrite (dec_input_on_path upipe a u b k Hk Hb) by (assumption || lia).
  unfold adaptation_step. rewrite Had.
  change (Z.to_nat (Z.of_nat TS_HEADER_SIZE)) with 4%nat.
  rewrite (extract_short u b 4 Hb) by lia. reflexivity.
Qed.

(** X7. On a buffer of bytes that is at least 187 bytes long (a TS packet
    has 188) the input handler is defined, whatever the header says and
    whatever the allocator answers: the length it hands to the cipher is
    never negative. *)
Theorem dec_input_defined (upipe : upipe_dvbcsa_dec) (a : alloc) (u : uref) :
  (forall b, ubuf u = Some b -> bytes b /\ (187 <= length b)%nat) ->
  exists evs, upipe_dvbcsa_dec_input upipe a u = Some evs.
Proof.
  intros Hu. unfold upipe_dvbcsa_dec_input.
  destruct (key upipe) as [k |]; [| eauto].
  destruct (uref_block_peek u 0 TS_HEADER_SIZE) as [hdr |] eqn:Hpeek; [| eauto].
  apply peek_inv in Hpeek as (b & Hb & Hlen & ->).
  destruct (Hu b Hb) as [Hbytes H187].
  destruct (header_fields b) as (-> & -> & -> & ->).
  destruct (negb _ || negb _ || negb _); [eauto |].
  destruct (adaptation_step u (ts_has_adaptation b) (Z.of_nat TS_HEADER_SIZE))
    as [evs | n] eqn:Hstep; [eauto |].
  apply (adaptation_step_inv u b n Hb Hbytes Hlen) in Hstep as [-> Haf].
  destruct (negb (ubuf_block_copy_ok a)); [eauto |]. rewrite Hb.
  destruct (negb (ubuf_block_write_ok a)); [eauto |].
  assert (Hstart : (payload_start b <= 187)%nat).
  { unfold payload_start in *. destruct (ts_has_adaptation b); [| lia].
    destruct (Haf eq_refl). lia. }
  destruct (Z.ltb_spec (Z.of_nat (length b) - Z.of_nat (payload_start b)) 0);
    [lia | eauto].
Qed.

(** X8. The input handler does not compare the adaptation field length with
    the size of the buffer. On the decryption path, a buffer that is shorter
    than the header and adaptation field it announces makes
    [size - ts_header_size] negative, and the cipher is called with that
    length converted to unsigned: the call is undefined. *)
Theorem dec_input_short_payload_undefined (upipe : upipe_dvbcsa_dec)
    (a : alloc) (u : uref) (b : list Z) (k : dvbcsa_key_t) :
  key upipe = Some k ->
  ubuf u = Some b ->
  (5 <= length b)%nat ->
  ts_get_scrambling b = 2 ->
  ts_has_payload b = true ->
  upipe_dvbcsa_common_check_pid (common upipe) (ts_get_pid b) = true ->
  ts_has_adaptation b = true ->
  ts_af_length b < 183 ->
  Z.of_nat (length b) < 4 + 1 + ts_af_length b ->
  ubuf_block_copy_ok a = true ->
  ubuf_block_write_ok a = true ->
  upipe_dvbcsa_dec_input upipe a u = None.
Proof.
  intros Hk Hb Hlen Hsc Hpl Hpid Had Haf Hshort Hcopy Hwrite.
  rewrite (dec_input_on_path upipe a u b k Hk Hb) by (assumption || lia).
  unfold adaptation_step. rewrite Had.
  change (Z.to_nat (Z.of_nat TS_HEADER_SIZE)) with 4%nat.
  rewrite (extract_at u b 4 Hb) by lia. fold (ts_af_length b).
  destruct (Z.leb_spec 183 (ts_af_length b)); [lia |].
  rewrite Hcopy, Hwrite. cbn [negb].
  destruct (Z.ltb_spec
              (Z.of_nat (length b) -
               (Z.of_nat TS_HEADER_SIZE + (ts_af_length b + 1))) 0);
    [reflexivity | unfold TS_HEADER_SIZE in *; lia].
Qed.

(** A call of the cipher is made with the stored key. *)
Lemma dec_input_decrypt_key (upipe : upipe_dvbcsa_dec) (a : alloc) (u : uref)
    (evs : list event) (k : dvbcsa_key_t) (data : list Z) :
  upipe_dvbcsa_dec_input upipe a u = Some evs ->
  In (EvDecrypt k data) evs -> key upipe = Some k.
Proof.
  unfold upipe_dvbcsa_dec_input, adaptation_step.
  repeat case_match; intros [= <-]; simplify_eq; cbn;
    intuition (try discriminate); simplify_eq; reflexivity.
Qed.

(** X9. After set_key, whatever key was stored before: when the call gave
    NULL, or a text that was refused, or failed to allocate, every packet is
    output untouched from then on, scrambled or not; and a later call of the
    cipher is made with the key built from the new text, never with the old
    key. The whitelist is not touched. *)
Theorem set_key_then_input (upipe upipe' : upipe_dvbcsa_dec)
    (key_alloc_ok : bool) (text : option string) (err : ubase_err)
    (evs : list event) :
  upipe_dvbcsa_dec_set_key upipe key_alloc_ok text = (err, upipe', evs) ->
  common upipe' = common upipe /\
  (text = None \/ err <> UBASE_ERR_NONE ->
   forall a u, upipe_dvbcsa_dec_input upipe' a u = Some [EvOutput u]) /\
  (forall a u evs' k data,
     upipe_dvbcsa_dec_input upipe' a u = Some evs' ->
     In (EvDecrypt k data) evs' ->
     err = UBASE_ERR_NONE /\
     exists t, text = Some t /\
               k = dvbcsa_key_set (value (ustring_to_dvbcsa_cw t))).
Proof.
  intros Hset.
  assert (Hcases :
    common upipe' = common upipe /\
    ((key upipe' = None /\ (text = None \/ err <> UBASE_ERR_NONE)) \/
     (err = UBASE_ERR_NONE /\ exists t, text = Some t /\
        key upipe' = Some (dvbcsa_key_set (value (ustring_to_dvbcsa_cw t)))))).
  { unfold upipe_dvbcsa_dec_set_key in Hset.
    destruct text as [t |]; [| injection Hset as <- <- _; auto].
    destruct (set_key_rejects t);
      [injection Hset as <- <- _; split; [reflexivity | left];
       split; [reflexivity | right; discriminate] |].
    destruct key_alloc_ok; cbn [negb] in Hset; injection Hset as <- <- _.
    - split; [reflexivity | right]. eauto.
    - split; [reflexivity | left]. split; [reflexivity | right; discriminate]. }
  destruct Hcases as [Hcommon Hkey]. split; [exact Hcommon |]. split.
  - intros Hwhy a u. unfold upipe_dvbcsa_dec_input.
    destruct Hkey as [[-> _] | [-> (t & -> & _)]]; [reflexivity |].
    destruct Hwhy as [[=] | Hne]. contradiction.
  - intros a u evs' k data Hrun Hin.
    pose proof (dec_input_decrypt_key upipe' a u evs' k data Hrun Hin) as Hk.
    destruct Hkey as [[Hnone _] | [-> (t & -> & Hnew)]]; [congruence |].
    split; [reflexivity |]. exists t. split; [reflexivity | congruence].
Qed.

(** X22. A new pipe is transparent: until a set_key succeeds, every uref of
    a run is output as it came in, in order, whatever its content, the
    whitelist and the allocator's answers. *)
Theorem new_pipe_outputs_all (common_init : upipe_dvbcsa_common)
    (l : list (alloc * uref)) :
  upipe_dvbcsa_dec_inputs (upipe_dvbcsa_dec_alloc common_init) l =
    Some (map (fun au => EvOutput (snd au)) l).
Proof.
  induction l as [| [a u] l IH]; [reflexivity |].
  cbn [upipe_dvbcsa_dec_inputs map snd]. rewrite IH. reflexivity.
Qed.

End DvbcsaMoreProps.

(** ** Worked examples for the further properties of the descrambling pipe *)

Section DvbcsaMoreExamples.
Import Upipe TS Dvbcsa DvbcsaMore Sample.

Lemma packet_bytes (header : list Z) :
  bytes header -> bytes (packet header).
Proof.
  intros Hb. unfold bytes, packet. apply Forall_app. split; [exact Hb |].
  apply List.Forall_forall. intros x Hx. apply repeat_spec in Hx. lia.
Qed.

Lemma block_bytes (b : list Z) :
  bytes b -> forall b', ubuf (block b) = Some b' -> bytes b'.
Proof. intros Hb b' [= <-]. exact Hb. Qed.

(** The descrambled packet of scenario 2: one cipher call, one output, no
    free. *)
Lemma dec_input_consumes_once_witness :
  let evs := [EvDecrypt (0x5a : @dvbcsa_key_t xor_cipher) (repeat 0 184);
              EvOutput (block ([0x47; 0x01; 0x00; 0x10] ++ repeat 0x5a 184))] in
  (count is_output evs + count is_free evs = 1)%nat /\
  (count is_decrypt evs <= count is_output evs)%nat.
Proof.
  apply (@dec_input_consumes_once xor_cipher list_common keyed alloc_ok
           (block (packet [0x47; 0x01; 0x00; 0x90]))).
  vm_compute. reflexivity.
Defined.

Lemma dec_input_output_keeps_header_witness :
  let out := block ([0x47; 0x01; 0x00; 0x10] ++ repeat 0x5a 184) in
  f_def out = None /\ t_pid out = None /\
  (out = block (packet [0x47; 0x01; 0x00; 0x90]) \/
   exists b b', ubuf (block (packet [0x47; 0x01; 0x00; 0x90])) = Some b /\
     ubuf out = Some b' /\
     length b' = length b /\
     ts_get_pid b' = ts_get_pid b /\
     ts_has_payload b' = ts_has_payload b /\
     ts_has_adaptation b' = ts_has_adaptation b /\
     Z.land (at_ b' 3) 0x0f = Z.land (at_ b 3) 0x0f /\
     (forall i, (i < 3)%nat -> at_ b' i = at_ b i) /\
     ts_get_scrambling b' = 0).
Proof.
  apply (@dec_input_output_keeps_header xor_cipher list_common keyed alloc_ok
           (block (packet [0x47; 0x01; 0x00; 0x90]))
           (block ([0x47; 0x01; 0x00; 0x10] ++ repeat 0x5a 184))
           [EvDecrypt (0x5a : @dvbcsa_key_t xor_cipher) (repeat 0 184);
            EvOutput (block ([0x47; 0x01; 0x00; 0x10] ++ repeat 0x5a 184))]).
  - apply block_bytes, packet_bytes. repeat constructor; lia.
  - vm_compute. reflexivity.
  - right. left. reflexivity.
Defined.

Lemma dec_input_cipher_only_on_path_witness :
  exists b,
    ubuf (block (packet [0x47; 0x01; 0x00; 0x90])) = Some b /\
    key keyed = Some 0x5a /\
    ts_get_scrambling b = 2 /\ ts_has_payload b = true /\
    upipe_dvbcsa_common_check_pid (dvbcsa_common := list_common)
      (common keyed) (ts_get_pid b) = true /\
    (ts_has_adaptation b = true -> ts_af_length b < 183) /\
    ubuf_block_copy_ok alloc_ok = true /\
    repeat 0 184 = skipn (payload_start b) b.
Proof.
  apply (@dec_input_cipher_only_on_path xor_cipher list_common keyed alloc_ok
           (block (packet [0x47; 0x01; 0x00; 0x90]))
           [EvDecrypt (0x5a : @dvbcsa_key_t xor_cipher) (repeat 0 184);
            EvOutput (block ([0x47; 0x01; 0x00; 0x10] ++ repeat 0x5a 184))]).
  - apply block_bytes, packet_bytes. repeat constructor; lia.
  - vm_compute. reflexivity.
  - left. reflexivity.
Defined.

Lemma dec_input_idempotent_witness :
  let out := block ([0x47; 0x01; 0x00; 0x10] ++ repeat 0x5a 184) in
  upipe_dvbcsa_dec_input keyed alloc_ok out = Some [EvOutput out].
Proof.
  apply (@dec_input_idempotent xor_cipher list_common keyed alloc_ok alloc_ok
           (block (packet [0x47; 0x01; 0x00; 0x90]))
           (block ([0x47; 0x01; 0x00; 0x10] ++ repeat 0x5a 184))
           [EvDecrypt (0x5a : @dvbcsa_key_t xor_cipher) (repeat 0 184);
            EvOutput (block ([0x47; 0x01; 0x00; 0x10] ++ repeat 0x5a 184))]).
  - apply block_bytes, packet_bytes. repeat constructor; lia.
  - vm_compute. reflexivity.
  - right. left. reflexivity.
Defined.

Lemma dec_input_alloc_failure_witness :
  exists msg u',
    upipe_dvbcsa_dec_input keyed
      {| ubuf_block_copy_ok := false; ubuf_block_write_ok := true |}
      (block (packet [0x47; 0x01; 0x00; 0x90]))
    = Some [EvLog ULOG_ERROR msg; EvFree u'] /\
    msg = "fail to allocate buffer"%string.
Proof.
  apply (@dec_input_alloc_failure xor_cipher list_common keyed
           {| ubuf_block_copy_ok := false; ubuf_block_write_ok := true |}
           (block (packet [0x47; 0x01; 0x00; 0x90]))
           (packet [0x47; 0x01; 0x00; 0x90]) 0x5a);
    try reflexivity.
  - vm_compute. lia.
  - vm_compute. discriminate.
  - left. reflexivity.
Defined.

Lemma dec_input_no_length_byte_witness :
  upipe_dvbcsa_dec_input keyed alloc_ok (block [0x47; 0x01; 0x00; 0xb0])
  = Some [EvLog ULOG_ERROR "fail to extract adaptation field length";
          EvFree (block [0x47; 0x01; 0x00; 0xb0])].
Proof.
  apply (@dec_input_no_length_byte xor_cipher list_common keyed alloc_ok
           (block [0x47; 0x01; 0x00; 0xb0]) [0x47; 0x01; 0x00; 0xb0] 0x5a);
    reflexivity.
Defined.

Lemma dec_input_defined_witness :
  exists evs,
    upipe_dvbcsa_dec_input keyed alloc_ok
      (block (packet [0x47; 0x01; 0x00; 0xb0; 182])) = Some evs.
Proof.
  apply (@dec_input_defined xor_cipher list_common keyed alloc_ok
           (block (packet [0x47; 0x01; 0x00; 0xb0; 182]))).
  intros b [= <-]. split.
  - apply packet_bytes. repeat constructor; lia.
  - vm_compute. lia.
Defined.

(** A buffer of 10 bytes that announces an adaptation field of 100. *)
Lemma dec_input_short_payload_undefined_witness :
  upipe_dvbcsa_dec_input keyed alloc_ok
    (block [0x47; 0x01; 0x00; 0xb0; 100; 0; 0; 0; 0; 0]) = None.
Proof.
  apply (@dec_input_short_payload_undefined xor_cipher list_common keyed
           alloc_ok (block [0x47; 0x01; 0x00; 0xb0; 100; 0; 0; 0; 0; 0])
           [0x47; 0x01; 0x00; 0xb0; 100; 0; 0; 0; 0; 0] 0x5a);
    try reflexivity; vm_compute; lia.
Defined.

(** After a refused text the scrambled packet of scenario 2 passes through. *)
Lemma set_key_then_input_witness :
  upipe_dvbcsa_dec_input keyless alloc_ok
    (block (packet [0x47; 0x01; 0x00; 0x90]))
  = Some [EvOutput (block (packet [0x47; 0x01; 0x00; 0x90]))].
Proof.
  destruct (@set_key_then_input xor_cipher list_common keyed keyless true
              (Some "bad"%string) UBASE_ERR_INVALID [] eq_refl)
    as (_ & Hpass & _).
  apply Hpass. right. discriminate.
Defined.

End DvbcsaMoreExamples.

(** * Further properties of the PID demultiplexer *)

Section SplitMoreProps.
Import Upipe TS Split SplitOutput.
Import DvbcsaMore (bytes).

Lemma bytes_firstn (b : list Z) (n : nat) : bytes b -> bytes (firstn n b).
Proof. unfold bytes. apply Forall_take. Qed.

(** X10. upipe_ts_split_work never reads outside the PID table: on a table
    of MAX_PIDS slots and a buffer of bytes, of any length, it is defined,
    whatever uref_dup answers, because the PID it takes from the header has
    13 bits. *)
Theorem work_defined (s : upipe_ts_split) (dup_ok : nat -> bool) (u : uref) :
  table_ok s ->
  (forall b, ubuf u = Some b -> bytes b) ->
  exists evs, upipe_ts_split_work s dup_ok u = Some evs.
Proof.
  intros Ht Hbytes. unfold upipe_ts_split_work.
  destruct (uref_block_peek u 0 TS_HEADER_SIZE) as [hdr |] eqn:Hpeek; [| eauto].
  apply peek_inv in Hpeek as (b & Hb & _ & ->).
  destruct (pid_slot_in_table s (ts_get_pid (firstn 4 b)) Ht) as [p ->];
    [| eauto].
  apply ts_get_pid_range, bytes_firstn, Hbytes, Hb.
Qed.

(** The outputs served by the loop are the first ones of the collection, in
    its order, and each gets the content of the uref that came in. *)
Lemma fan_out_forwarded (dup_ok : nat -> bool) (u : uref) (l : ulist) :
  forall n,
    (exists rest, l = forwarded_to (fan_out dup_ok n l u) ++ rest) /\
    (forall h p u', In (EvOutput h p u') (fan_out dup_ok n l u) -> u' = u).
Proof.
  induction l as [| x l IH]; intros n.
  - split; [exists []; reflexivity | intros h p u' [[=] | []]].
  - cbn [fan_out]. destruct l as [| y l'].
    + split; [exists []; reflexivity |].
      intros h p u' [[= _ _ <-] | []]. reflexivity.
    + destruct (dup_ok n).
      * destruct (IH (S n)) as [[rest Hrest] Hu]. split.
        -- exists rest. cbn [forwarded_to flat_map app] in *.
           f_equal. exact Hrest.
        -- intros h p u' [[= _ _ <-] | Hin]; [reflexivity |].
           eapply Hu. exact Hin.
      * split; [exists (x :: y :: l'); reflexivity |].
        intros h p u' [[=] | [[=] | []]].
Qed.

(** X11. Whatever uref_dup answers, a packet is forwarded only to outputs
    subscribed to its PID: the outputs served are the first ones of the
    collection of that PID, in registration order, each served once, and
    what each receives has the content of the uref that came in. *)
Theorem work_forwards_prefix (s : upipe_ts_split) (dup_ok : nat -> bool)
    (u : uref) (b : list Z) (evs : list event) :
  ubuf u = Some b ->
  upipe_ts_split_work s dup_ok u = Some evs ->
  (exists rest,
     subscribers s (ts_get_pid b) = forwarded_to evs ++ rest) /\
  (forall h p u', In (EvOutput h p u') evs -> u' = u).
Proof.
  intros Hb. unfold upipe_ts_split_work.
  destruct (uref_block_peek u 0 TS_HEADER_SIZE) as [hdr |] eqn:Hpeek.
  - apply peek_inv in Hpeek as (b' & Hb' & _ & ->).
    rewrite Hb in Hb'. injection Hb' as <-.
    destruct (header_fields b) as (_ & _ & _ & ->).
    destruct (pid_slot s (ts_get_pid b)) as [p |] eqn:Hs; [| discriminate].
    intros [= <-]. rewrite (subscribers_slot s _ p Hs).
    apply fan_out_forwarded.
  - intros [= <-]. split; [eexists; reflexivity |].
    intros h p u' [[=] | [[=] | []]].
Qed.

Lemma fan_out_consumes_once (dup_ok : nat -> bool) (u : uref) (l : ulist) :
  forall n,
    (count is_original (fan_out dup_ok n l u) +
     count is_free (fan_out dup_ok n l u) = 1)%nat /\
    (forall u', In (EvFree u') (fan_out dup_ok n l u) -> u' = u).
Proof.
  induction l as [| x l IH]; intros n.
  - split; [reflexivity | intros u' [[= <-] | []]; reflexivity].
  - cbn [fan_out]. destruct l as [| y l'].
    + split; [reflexivity | intros u' [[=] | []]].
    + destruct (dup_ok n).
      * destruct (IH (S n)) as [Hc Hf]. split; [exact Hc |].
        intros u' [[=] | Hin]. apply Hf, Hin.
      * split; [reflexivity |].
        intros u' [[= <-] | [[=] | []]]. reflexivity.
Qed.

(** X12. Whenever upipe_ts_split_work returns, the uref that came in has
    been given away exactly once: either one output received it, or it was
    freed, once; never both, never neither, whatever uref_dup answers.
    Nothing else is freed. *)
Theorem work_consumes_once (s : upipe_ts_split) (dup_ok : nat -> bool)
    (u : uref) (evs : list event) :
  upipe_ts_split_work s dup_ok u = Some evs ->
  (count is_original evs + count is_free evs = 1)%nat /\
  (forall u', In (EvFree u') evs -> u' = u).
Proof.
  unfold upipe_ts_split_work.
  destruct (uref_block_peek u 0 TS_HEADER_SIZE) as [hdr |].
  - destruct (pid_slot s (ts_get_pid hdr)) as [p |]; [| discriminate].
    intros [= <-]. apply fan_out_consumes_once.
  - intros [= <-]. split; [reflexivity |].
    intros u' [[=] | [[= <-] | []]]. reflexivity.
Qed.

(** X13. A run of the input handler over urefs with buffers of bytes is
    defined, never changes the PID table, and leaves flow_def_ok as the last
    flow definition of the run decides: true when its tag starts with
    "block.mpegts.", false when not, unchanged when the run has none. *)
Theorem inputs_run (l : list ((nat -> bool) * uref)) :
  forall s,
    table_ok s ->
    Forall (fun du => forall b, ubuf (snd du) = Some b -> bytes b) l ->
    exists evs,
      upipe_ts_split_inputs s l =
        Some ({| flow_def_ok := ready_after (flow_def_ok s) l;
                 pids := pids s |}, evs).
Proof.
  induction l as [| [dup_ok u] l IH]; intros s Ht Hl.
  - exists []. destruct s. reflexivity.
  - apply Forall_cons in Hl as [Hu Hl]. cbn [snd] in Hu.
    assert (Hstep : exists evs,
      upipe_ts_split_input s dup_ok u =
        Some ({| flow_def_ok := ready_after (flow_def_ok s) [(dup_ok, u)];
                 pids := pids s |}, evs)).
    { unfold upipe_ts_split_input, ready_after. cbn [fold_left snd].
      destruct (uref_flow_get_def u) as [def |].
      - destruct (ubase_ncmp def EXPECTED_FLOW_DEF); eauto.
      - destruct s as [ok tbl]. cbn [flow_def_ok pids].
        destruct ok; cbn [negb]; [| eauto].
        destruct (work_defined {| flow_def_ok := true; pids := tbl |}
                    dup_ok u Ht Hu) as [evs ->].
        destruct (ubuf u); eauto. }
    destruct Hstep as [evs Hstep].
    cbn [upipe_ts_split_inputs]. rewrite Hstep.
    destruct (IH {| flow_def_ok := ready_after (flow_def_ok s) [(dup_ok, u)];
                    pids := pids s |} Ht Hl) as [evs' ->].
    exists (evs ++ evs'). reflexivity.
Qed.

Lemma to_nat_pid_ne (pid pid' : Z) :
  0 <= pid -> 0 <= pid' -> pid <> pid' -> Z.to_nat pid <> Z.to_nat pid'.
Proof. lia. Qed.

(** X14. A subscription of an output that is in no list, or a removal, on
    a table of chains with MAX_PIDS slots is always carried out, throws at
    most one event, about that PID, leaves the slot of every other PID and
    the flow_def_ok flag as they were, and leaves a table of chains. *)
Theorem pid_op_frame (s : upipe_ts_split) (op : pid_op) :
  table_ok s ->
  chains_ok s ->
  assert_pid (op_pid op) = true ->
  op_fresh s op = true ->
  exists s' evs,
    pid_op_step s op = Some (s', evs) /\
    table_ok s' /\ chains_ok s' /\
    flow_def_ok s' = flow_def_ok s /\
    (forall pid', 0 <= pid' -> pid' <> op_pid op ->
                  pid_slot s' pid' = pid_slot s pid') /\
    (evs = [] \/ evs = [EvSetPid (op_pid op)] \/ evs = [EvUnsetPid (op_pid op)]).
Proof.
  intros Ht Hc Ha Hfresh.
  destruct (pid_slot_in_table s (op_pid op) Ht Ha) as [p Hs].
  pose proof (pid_op_step_store s op p Ha Hs) as Hstep. cbv zeta in Hstep.
  eexists _, _. split; [exact Hstep |].
  split; [apply table_ok_store, Ht |].
  split; [exact (pid_op_step_chains s _ op _ Ht Hc Ha Hfresh Hstep) |].
  split; [reflexivity |]. split.
  - intros pid' H0 Hne. apply pid_slot_store_ne.
    apply assert_pid_range in Ha. apply to_nat_pid_ne; lia.
  - destruct (set p), (ulist_empty _); auto.
Qed.

Lemma occupied_slot (s : upipe_ts_split) (pid : Z) (p : upipe_ts_split_pid) :
  pid_slot s pid = Some p ->
  occupied s pid = if ulist_empty (outputs p) then 0 else 1.
Proof. intros Hs. unfold occupied. rewrite (subscribers_slot s pid p Hs). reflexivity. Qed.

Lemma count_app (kind : event -> bool) (l1 l2 : list event) :
  count kind (l1 ++ l2) = (count kind l1 + count kind l2)%nat.
Proof. unfold count. rewrite List.filter_app, length_app. reflexivity. Qed.

(** The notifications of one operation, counted for any PID. *)
Lemma pid_op_step_balance (s : upipe_ts_split) (op : pid_op) :
  table_ok s -> flags_ok s -> assert_pid (op_pid op) = true ->
  exists s' evs,
    pid_op_step s op = Some (s', evs) /\ table_ok s' /\ flags_ok s' /\
    forall pid, 0 <= pid < MAX_PIDS ->
      Z.of_nat (count (is_set_pid pid) evs) -
      Z.of_nat (count (is_unset_pid pid) evs)
      = occupied s' pid - occupied s pid.
Proof.
  intros Ht Hf Ha.
  destruct (pid_slot_in_table s (op_pid op) Ht Ha) as [p Hs].
  pose proof (Hf _ _ Hs) as Hflag.
  set (q := {| outputs := spec_collection op (outputs p);
               set := negb (ulist_empty (spec_collection op (outputs p))) |}).
  eexists _, _. split; [exact (pid_op_step_store s op p Ha Hs) |].
  fold q. split; [apply table_ok_store, Ht |].
  split; [apply (flags_ok_store s _ p q Hf Hs); reflexivity |].
  intros pid Hpid.
  destruct (Z.eq_dec pid (op_pid op)) as [-> | Hne].
  - rewrite (occupied_slot s _ p Hs),
      (occupied_slot _ _ q (pid_slot_store_eq s _ p q Hs)).
    subst q. cbn [outputs]. rewrite Hflag.
    destruct (ulist_empty (outputs p)), (ulist_empty (spec_collection op _));
      cbn [negb]; unfold count; cbn; rewrite ?Z.eqb_refl; reflexivity.
  - assert (Hsame : occupied (store_slot s (op_pid op) q) pid = occupied s pid).
    { unfold occupied, subscribers. rewrite pid_slot_store_ne; [reflexivity |].
      apply assert_pid_range in Ha. apply to_nat_pid_ne; lia. }
    rewrite Hsame.
    assert (Hno : (op_pid op =? pid) = false) by (apply Z.eqb_neq; congruence).
    destruct (set p), (ulist_empty (spec_collection op _));
      unfold count; cbn; rewrite ?Hno; cbn; lia.
Qed.

(** X15. Over any sequence of subscriptions and removals, each subscription
    being that of an output which is in no list at that time, on a table of
    chains whose flags are right, and for every PID, the number of pid-set
    events thrown minus the number of pid-unset events thrown is the change
    of the slot between empty (0) and non-empty (1). From a new split pipe,
    there have been as many pid-set as pid-unset events for a PID whose slot
    is empty, and one more for a PID whose slot is not. *)
Theorem pid_ops_balance (ops : list pid_op) :
  forall s,
    table_ok s -> flags_ok s -> chains_ok s ->
    Forall (fun op => assert_pid (op_pid op) = true) ops ->
    ops_fresh s ops = true ->
    exists s' evs,
      pid_ops s ops = Some (s', evs) /\
      chains_ok s' /\
      forall pid, 0 <= pid < MAX_PIDS ->
        Z.of_nat (count (is_set_pid pid) evs) -
        Z.of_nat (count (is_unset_pid pid) evs)
        = occupied s' pid - occupied s pid.
Proof.
  induction ops as [| op ops IH]; intros s Ht Hf Hc Hops Hfresh.
  - exists s, []. split; [reflexivity |]. split; [exact Hc |].
    intros pid _. cbn. lia.
  - apply Forall_cons in Hops as [Hop Hops].
    destruct (pid_op_step_balance s op Ht Hf Hop)
      as (s1 & evs1 & Hstep & Ht1 & Hf1 & Hb1).
    cbn [ops_fresh] in Hfresh. rewrite Hstep in Hfresh.
    apply andb_true_iff in Hfresh as [Hfresh1 Hfresh].
    pose proof (pid_op_step_chains s s1 op _ Ht Hc Hop Hfresh1 Hstep) as Hc1.
    destruct (IH s1 Ht1 Hf1 Hc1 Hops Hfresh) as (s2 & evs2 & Hrun & Hc2 & Hb2).
    exists s2, (evs1 ++ evs2). cbn [pid_ops]. rewrite Hstep, Hrun.
    split; [reflexivity |]. split; [exact Hc2 |]. intros pid Hpid.
    rewrite !count_app, !Nat2Z.inj_add.
    specialize (Hb1 pid Hpid). specialize (Hb2 pid Hpid). lia.
Qed.

Lemma delete_all_not_in (l : ulist) (h : handle) :
  ~ In h (ulist_delete_all l h).
Proof.
  unfold ulist_delete_all. rewrite filter_In. intros [_ Hne].
  rewrite Nat.eqb_refl in Hne. discriminate.
Qed.

Lemma delete_all_absent (l : ulist) (h : handle) :
  ~ In h l -> ulist_delete_all l h = l.
Proof.
  intros Hnot. unfold ulist_delete_all. induction l as [| x l IH]; [reflexivity |].
  cbn. destruct (Nat.eqb_spec x h) as [-> | Hne].
  - exfalso. apply Hnot. left. reflexivity.
  - cbn. f_equal. apply IH. intros Hin. apply Hnot. right. exact Hin.
Qed.

(** X16. Removing an output twice is removing it once: on a table of
    chains, after a removal a second removal of the same output from the
    same PID leaves the split structure as it is and throws nothing; and on
    a table whose flags are right, the removal of an output that is not in
    the slot changes nothing and throws nothing. *)
Theorem unsubscribe_idempotent (s : upipe_ts_split) (pid : Z) (h : handle) :
  table_ok s ->
  chains_ok s ->
  assert_pid pid = true ->
  exists s' evs,
    pid_op_step s (Unsubscribe pid h) = Some (s', evs) /\
    chains_ok s' /\
    pid_op_step s' (Unsubscribe pid h) = Some (s', []) /\
    (flags_ok s -> ~ In h (subscribers s pid) -> s' = s /\ evs = []).
Proof.
  intros Ht Hc Ha.
  destruct (pid_slot_in_table s pid Ht Ha) as [p Hs].
  pose (l' := ulist_delete_all (outputs p) h).
  pose (q := {| outputs := l'; set := negb (ulist_empty l') |}).
  assert (Hq : pid_slot (store_slot s pid q) pid = Some q)
    by exact (pid_slot_store_eq s pid p q Hs).
  pose proof (pid_op_step_store s (Unsubscribe pid h) p Ha Hs) as Hstep.
  cbv zeta in Hstep.
  eexists _, _. split; [exact Hstep |].
  split; [exact (pid_op_step_chains s _ (Unsubscribe pid h) _ Ht Hc Ha
                   eq_refl Hstep) |].
  cbn [op_pid spec_collection].
  change (List.filter (fun x => negb (Nat.eqb x h)) (outputs p)) with l'.
  fold q. split.
  - rewrite (pid_op_step_store _ (Unsubscribe pid h) q Ha Hq).
    cbn [op_pid spec_collection].
    change (List.filter (fun x => negb (Nat.eqb x h)) (outputs q))
      with (ulist_delete_all l' h).
    rewrite (delete_all_absent l' h) by apply delete_all_not_in.
    rewrite store_slot_store. fold q.
    f_equal. f_equal. change (set q) with (negb (ulist_empty l')).
    destruct (ulist_empty l'); reflexivity.
  - intros Hf Hnot. rewrite (subscribers_slot s pid p Hs) in Hnot.
    pose proof (Hf _ _ Hs) as Hflag.
    assert (El : l' = outputs p) by exact (delete_all_absent _ _ Hnot).
    unfold q. rewrite El, <- Hflag.
    replace {| outputs := outputs p; set := set p |} with p
      by (destruct p; reflexivity).
    split; [exact (store_slot_id s pid p Hs) |].
    rewrite Hflag. destruct (ulist_empty (outputs p)); reflexivity.
Qed.

(** The successful path of upipe_ts_split_output_set_flow_def on a subpipe
    that holds no flow definition. *)
Lemma set_flow_def_subscribes (o : upipe_ts_split_output) (s : upipe_ts_split)
    (fd : uref) (pid : Z) (p : upipe_ts_split_pid) :
  flow_def o = None ->
  uref_ts_flow_get_pid fd = Some pid ->
  assert_pid pid = true ->
  pid_slot s pid = Some p ->
  upipe_ts_split_output_set_flow_def o s true fd =
    Some (true, {| self := self o; flow_def := Some fd |},
          store_slot s pid {| outputs := outputs p ++ [self o]; set := true |},
          if set p then [] else [EvSetPid pid]).
Proof.
  intros Hnone Hpid Ha Hs. unfold upipe_ts_split_output_set_flow_def.
  rewrite Hnone, Hpid. pose proof Ha as Hr. apply assert_pid_range in Hr.
  destruct (Z.leb_spec MAX_PIDS pid); [lia |]. cbn [negb self].
  rewrite Z.mod_small by (unfold MAX_PIDS in *; lia).
  change (upipe_ts_split_pid_set upipe_ts_split_to_upipe s pid (self o))
    with (pid_op_step s (Subscribe pid (self o))).
  rewrite (pid_op_step_store s (Subscribe pid (self o)) p Ha Hs).
  cbn [op_pid spec_collection].
  change (outputs p ++ [self o]) with (ulist_add (outputs p) (self o)).
  rewrite ulist_add_not_empty. cbn [negb app].
  destruct (set p); reflexivity.
Qed.

(** X17. On a subpipe that holds no flow definition, on a table whose flags
    are right, upipe_ts_split_output_set_flow_def returns true exactly when
    the flow definition carries a PID below 8192 and uref_dup succeeds. On
    false nothing has changed and the only event there can be is the
    allocation error. On true the flow definition is stored, the subpipe is
    the last of the collection of its PID, pid-set is thrown exactly when
    that collection was empty, and no other slot has changed. *)
Theorem set_flow_def_new_output (o : upipe_ts_split_output)
    (s : upipe_ts_split) (dup_ok : bool) (fd : uref) :
  flow_def o = None ->
  table_ok s -> flags_ok s ->
  (forall pid, uref_ts_flow_get_pid fd = Some pid -> 0 <= pid) ->
  exists r o' s' evs,
    upipe_ts_split_output_set_flow_def o s dup_ok fd = Some (r, o', s', evs) /\
    (r = true <->
     exists pid, uref_ts_flow_get_pid fd = Some pid /\ pid < MAX_PIDS /\
                 dup_ok = true) /\
    (r = false -> o' = o /\ s' = s /\ (evs = [] \/ evs = [EvAError])) /\
    (r = true -> forall pid, uref_ts_flow_get_pid fd = Some pid ->
       o' = {| self := self o; flow_def := Some fd |} /\
       subscribers s' pid = subscribers s pid ++ [self o] /\
       evs = (if ulist_empty (subscribers s pid) then [EvSetPid pid] else []) /\
       (forall pid', 0 <= pid' -> pid' <> pid ->
                     pid_slot s' pid' = pid_slot s pid') /\
       table_ok s' /\ flags_ok s').
Proof.
  intros Hnone Ht Hf Hpos.
  destruct (uref_ts_flow_get_pid fd) as [pid |] eqn:Hpid.
  - specialize (Hpos pid eq_refl).
    destruct (Z.leb_spec MAX_PIDS pid) as [Hbig | Hsmall].
    + exists false, o, s, []. split.
      { unfold upipe_ts_split_output_set_flow_def. rewrite Hnone, Hpid.
        destruct (Z.leb_spec MAX_PIDS pid); [reflexivity | lia]. }
      split; [split; [discriminate | intros (? & [= <-] & ? & _); lia] |].
      split; [auto | discriminate].
    + destruct dup_ok.
      * assert (Ha : assert_pid pid = true) by (apply assert_pid_range; lia).
        destruct (pid_slot_in_table s pid Ht Ha) as [p Hs].
        eexists true, _, _, _.
        split; [exact (set_flow_def_subscribes o s fd pid p Hnone Hpid Ha Hs) |].
        split; [split; [eauto | reflexivity] |].
        split; [discriminate |].
        intros _ pid' [= <-]. split; [reflexivity |].
        set (q := {| outputs := outputs p ++ [self o]; set := true |}).
        rewrite (subscribers_slot _ _ q (pid_slot_store_eq s pid p q Hs)),
          (subscribers_slot s _ p Hs).
        split; [reflexivity |]. split.
        { rewrite (Hf _ _ Hs). destruct (ulist_empty (outputs p)); reflexivity. }
        split.
        { intros pid' H0 Hne. apply pid_slot_store_ne.
          apply to_nat_pid_ne; [lia | lia | congruence]. }
        split; [apply table_ok_store, Ht |].
        apply (flags_ok_store s pid p q Hf Hs). subst q. cbn [outputs set].
        symmetry. apply (f_equal negb (ulist_add_not_empty (outputs p) (self o))).
      * exists false, o, s, [EvAError]. split.
        { unfold upipe_ts_split_output_set_flow_def. rewrite Hnone, Hpid.
          destruct (Z.leb_spec MAX_PIDS pid); [lia | reflexivity]. }
        split; [split; [discriminate | intros (? & _ & _ & [=])] |].
        split; [auto | discriminate].
  - exists false, o, s, []. split.
    { unfold upipe_ts_split_output_set_flow_def. rewrite Hnone, Hpid.
      reflexivity. }
    split; [split; [discriminate | intros (? & [=] & _)] |].
    split; [auto | discriminate].
Qed.

(** X18. On a subpipe that already holds a flow definition with a PID,
    upipe_ts_split_output_set_flow_def begins with the removal of that
    subscription, and makes it with the struct upipe of the subpipe (line
    189) where upipe_ts_split_pid_unset takes the split structure out of
    the struct upipe of the split pipe (as lines 205 and 272-274 pass it):
    the call has no defined result, whatever the table, the new flow
    definition and the answer of uref_dup. *)
Theorem set_flow_def_registered_undefined_all (o : upipe_ts_split_output)
    (s : upipe_ts_split) (dup_ok : bool) (old fd : uref) (pid : Z) :
  flow_def o = Some old ->
  uref_ts_flow_get_pid old = Some pid ->
  upipe_ts_split_output_set_flow_def o s dup_ok fd = None.
Proof.
  intros Hold Hpid. unfold upipe_ts_split_output_set_flow_def.
  rewrite Hold, Hpid. unfold upipe_ts_split_pid_unset.
  destruct (negb (assert_pid (pid mod 65536))); reflexivity.
Qed.

Lemma delete_all_snoc (l : ulist) (h : handle) :
  ~ In h l -> ulist_delete_all (l ++ [h]) h = l.
Proof.
  intros Hnot. unfold ulist_delete_all. rewrite List.filter_app. cbn.
  rewrite Nat.eqb_refl. cbn. rewrite app_nil_r.
  apply (delete_all_absent l h Hnot).
Qed.

(** X19. Subscribing and releasing is a round trip: when a subpipe with no
    flow definition, in no slot of a table whose flags are right, is given a
    flow definition with a valid PID and then loses its last reference, the
    split structure is again what it was. pid-set is thrown at the
    subscription and pid-unset at the release exactly when the collection
    of the PID was empty before; the release ends with the dead event. A
    release that is not the last reference does nothing. *)
Theorem subscribe_release_round_trip (o : upipe_ts_split_output)
    (s : upipe_ts_split) (fd : uref) (pid : Z) :
  flow_def o = None ->
  table_ok s -> flags_ok s ->
  uref_ts_flow_get_pid fd = Some pid ->
  assert_pid pid = true ->
  ~ In (self o) (subscribers s pid) ->
  exists o' s',
    upipe_ts_split_output_set_flow_def o s true fd =
      Some (true, o', s',
            if ulist_empty (subscribers s pid) then [EvSetPid pid] else []) /\
    upipe_ts_split_output_release o' s' true =
      Some (s, (if ulist_empty (subscribers s pid)
                then [OfSplit (EvUnsetPid pid)] else []) ++
               [EvDead (self o)]) /\
    upipe_ts_split_output_release o' s' false = Some (s', []).
Proof.
  intros Hnone Ht Hf Hpid Ha Hnot.
  destruct (pid_slot_in_table s pid Ht Ha) as [p Hs].
  rewrite (subscribers_slot s _ p Hs) in *.
  pose proof (Hf _ _ Hs) as Hflag.
  pose (q := {| outputs := outputs p ++ [self o]; set := true |}).
  exists {| self := self o; flow_def := Some fd |}, (store_slot s pid q).
  split.
  { rewrite (set_flow_def_subscribes o s fd pid p Hnone Hpid Ha Hs).
    rewrite Hflag. destruct (ulist_empty (outputs p)); reflexivity. }
  split; [| reflexivity].
  unfold upipe_ts_split_output_release. cbn [flow_def self]. rewrite Hpid.
  pose proof Ha as Hr. apply assert_pid_range in Hr.
  rewrite Z.mod_small by (unfold MAX_PIDS in *; lia).
  change (upipe_ts_split_pid_unset upipe_ts_split_to_upipe (store_slot s pid q)
            pid (self o))
    with (pid_op_step (store_slot s pid q) (Unsubscribe pid (self o))).
  rewrite (pid_op_step_store _ (Unsubscribe pid (self o)) q Ha
             (pid_slot_store_eq s pid p q Hs)).
  cbn [op_pid spec_collection].
  change (List.filter (fun x => negb (Nat.eqb x (self o))) (outputs q))
    with (ulist_delete_all (outputs p ++ [self o]) (self o)).
  rewrite (delete_all_snoc (outputs p) (self o) Hnot), store_slot_store.
  rewrite <- Hflag.
  replace {| outputs := outputs p; set := set p |} with p by (destruct p; reflexivity).
  rewrite (store_slot_id s pid p Hs). cbn [set q].
  destruct (ulist_empty (outputs p)); reflexivity.
Qed.

(** X20. The output subscribed last is the one that gets the packet itself:
    after a subpipe has been given a flow definition with a valid PID, a
    packet of that PID goes as a duplicate to each output that was there
    before, in their order, and as the uref that came in to the new one
    (every uref_dup succeeding). *)
Theorem subscribe_then_work (o : upipe_ts_split_output) (s : upipe_ts_split)
    (fd : uref) (dup_ok : nat -> bool) (u : uref) (b : list Z) :
  flow_def o = None ->
  table_ok s ->
  uref_ts_flow_get_pid fd = Some (ts_get_pid b) ->
  ubuf u = Some b -> bytes b -> (4 <= length b)%nat ->
  (forall i, (i < length (subscribers s (ts_get_pid b)))%nat ->
             dup_ok i = true) ->
  exists o' s' evs,
    upipe_ts_split_output_set_flow_def o s true fd = Some (true, o', s', evs) /\
    upipe_ts_split_work s' dup_ok u =
      Some (imap (fun i output => EvOutput output (Duplicate i) u)
                 (subscribers s (ts_get_pid b)) ++
            [EvOutput (self o) Original u]).
Proof.
  intros Hnone Ht Hpid Hb Hbytes Hlen Hdup.
  pose proof (ts_get_pid_range b Hbytes) as Ha.
  destruct (pid_slot_in_table s _ Ht Ha) as [p Hs].
  rewrite (subscribers_slot s _ p Hs) in *.
  pose (q := {| outputs := outputs p ++ [self o]; set := true |}).
  eexists _, (store_slot s (ts_get_pid b) q), _.
  split; [exact (set_flow_def_subscribes o s fd _ p Hnone Hpid Ha Hs) |].
  rewrite (work_runs_fan_out _ dup_ok u b (table_ok_store s _ q Ht) Hb Hlen Hbytes).
  rewrite (subscribers_slot _ _ q (pid_slot_store_eq s _ p q Hs)).
  cbn [outputs q].
  rewrite fan_out_prefix; [reflexivity | discriminate | exact Hdup].
Qed.

Lemma forwarded_to_in (evs : list event) (h : handle) (p : uref_ptr)
    (u : uref) :
  In (EvOutput h p u) evs -> In h (forwarded_to evs).
Proof.
  intros Hin. unfold forwarded_to. apply in_flat_map.
  exists (EvOutput h p u). split; [exact Hin | left; reflexivity].
Qed.

(** X21. A released output gets nothing any more: after the release of a
    subpipe that holds a flow definition with a valid PID, no packet of that
    PID is forwarded to it, whatever uref_dup answers. *)
Theorem release_then_work (o : upipe_ts_split_output) (s : upipe_ts_split)
    (fd : uref) (pid : Z) :
  flow_def o = Some fd ->
  uref_ts_flow_get_pid fd = Some pid ->
  assert_pid pid = true ->
  table_ok s ->
  exists s' evs,
    upipe_ts_split_output_release o s true = Some (s', evs) /\
    forall dup_ok u b evs' p u',
      ubuf u = Some b -> ts_get_pid b = pid ->
      upipe_ts_split_work s' dup_ok u = Some evs' ->
      ~ In (EvOutput (self o) p u') evs'.
Proof.
  intros Hfd Hpid Ha Ht.
  destruct (pid_slot_in_table s pid Ht Ha) as [sl Hs].
  pose (q := {| outputs := ulist_delete_all (outputs sl) (self o);
                set := negb (ulist_empty
                               (ulist_delete_all (outputs sl) (self o))) |}).
  exists (store_slot s pid q). eexists. split.
  { unfold upipe_ts_split_output_release. rewrite Hfd, Hpid.
    pose proof Ha as Hr. apply assert_pid_range in Hr.
    rewrite Z.mod_small by (unfold MAX_PIDS in *; lia).
    change (upipe_ts_split_pid_unset upipe_ts_split_to_upipe s pid (self o))
      with (pid_op_step s (Unsubscribe pid (self o))).
    rewrite (pid_op_step_store s (Unsubscribe pid (self o)) sl Ha Hs).
    reflexivity. }
  intros dup_ok u b evs' p u' Hb Hb_pid Hwork Hin.
  unfold upipe_ts_split_work in Hwork.
  destruct (uref_block_peek u 0 TS_HEADER_SIZE) as [hdr |] eqn:Hpeek.
  - apply peek_inv in Hpeek as (b' & Hb' & _ & ->).
    rewrite Hb in Hb'. injection Hb' as <-.
    destruct (header_fields b) as (_ & _ & _ & E). rewrite E, Hb_pid in Hwork.
    rewrite (pid_slot_store_eq s pid sl q Hs) in Hwork.
    injection Hwork as <-.
    destruct (fan_out_forwarded dup_ok u (outputs q) 0) as [[rest Hrest] _].
    apply forwarded_to_in in Hin.
    apply (delete_all_not_in (outputs sl) (self o)).
    change (ulist_delete_all (outputs sl) (self o)) with (outputs q).
    rewrite Hrest. apply in_or_app. left. exact Hin.
  - injection Hwork as <-. destruct Hin as [[=] | [[=] | []]].
Qed.

End SplitMoreProps.

(** ** Worked examples for the further properties of the demultiplexer *)

Section SplitMoreExamples.
Import Upipe TS Split SplitOutput Sample.
Import DvbcsaMore (bytes).

Lemma split_with_table_ok (l : ulist) (ok : bool) : table_ok (split_with l ok).
Proof.
  unfold table_ok, split_with. cbn [pids]. rewrite length_insert.
  apply alloc_table_ok.
Qed.

Lemma split_with_chains_ok (l : ulist) (ok : bool) :
  List.NoDup l -> chains_ok (split_with l ok).
Proof.
  intros Hl.
  change (chains_ok (store_slot upipe_ts_split_alloc 256
            {| outputs := l; set := negb (ulist_empty l) |})).
  apply (chains_ok_store upipe_ts_split_alloc 256
           {| outputs := []; set := false |}).
  - apply alloc_chains_ok.
  - reflexivity.
  - exact Hl.
  - intros h _. right. intros i p' Hp.
    unfold upipe_ts_split_alloc in Hp. cbn [pids] in Hp.
    apply lookup_replicate in Hp as [-> _]. intros [].
Qed.

Lemma sample_packet_bytes :
  forall b, ubuf (block (packet [0x47; 0x01; 0x00; 0x10])) = Some b -> bytes b.
Proof. apply block_bytes, packet_bytes. repeat constructor; lia. Qed.

Lemma work_defined_witness :
  exists evs,
    upipe_ts_split_work (split_with [1; 2]%nat true) (fails_at 0)
      (block (packet [0x47; 0x01; 0x00; 0x10])) = Some evs.
Proof.
  apply (work_defined (split_with [1; 2]%nat true) (fails_at 0)
           (block (packet [0x47; 0x01; 0x00; 0x10]))).
  - apply split_with_table_ok.
  - apply sample_packet_bytes.
Defined.

(** Three outputs, the second uref_dup fails: output 1 is served, 2 and 3
    are not. *)
Lemma work_forwards_prefix_witness :
  let u := block (packet [0x47; 0x01; 0x00; 0x10]) in
  let evs := [EvOutput 1 (Duplicate 0) u; EvFree u; EvAError] in
  (exists rest,
     subscribers (split_with [1; 2; 3]%nat true)
       (ts_get_pid (packet [0x47; 0x01; 0x00; 0x10]))
     = forwarded_to evs ++ rest) /\
  (forall h p u', In (EvOutput h p u') evs -> u' = u).
Proof.
  intros u evs.
  apply (work_forwards_prefix (split_with [1; 2; 3]%nat true) (fails_at 1) u
           (packet [0x47; 0x01; 0x00; 0x10]) evs).
  - reflexivity.
  - vm_compute. reflexivity.
Defined.

Lemma work_consumes_once_witness :
  let u := block (packet [0x47; 0x01; 0x00; 0x10]) in
  let evs := [EvOutput 1 (Duplicate 0) u; EvFree u; EvAError] in
  (count is_original evs + count is_free evs = 1)%nat /\
  (forall u', In (EvFree u') evs -> u' = u).
Proof.
  intros u evs.
  apply (work_consumes_once (split_with [1; 2; 3]%nat true) (fails_at 1) u evs).
  vm_compute. reflexivity.
Defined.

Lemma inputs_run_witness :
  let l := [(always true, flow_tag "block.h264.");
            (always true, block (packet [0x47; 0x01; 0x00; 0x10]))] in
  exists evs,
    upipe_ts_split_inputs (split_with [1]%nat true) l =
      Some ({| flow_def_ok := ready_after true l;
               pids := pids (split_with [1]%nat true) |}, evs).
Proof.
  intros l.
  apply (inputs_run l (split_with [1]%nat true)).
  - apply split_with_table_ok.
  - repeat constructor.
    + intros b [=].
    + apply sample_packet_bytes.
Defined.

Example inputs_run_ready_after :
  ready_after true
    [(always true, flow_tag "block.h264.");
     (always true, block (packet [0x47; 0x01; 0x00; 0x10]))] = false.
Proof. reflexivity. Qed.

Lemma pid_op_frame_witness :
  exists s' evs,
    pid_op_step (split_with [1]%nat true) (Subscribe 17 2) = Some (s', evs) /\
    table_ok s' /\ chains_ok s' /\
    flow_def_ok s' = true /\
    (forall pid', 0 <= pid' -> pid' <> 17 ->
                  pid_slot s' pid' = pid_slot (split_with [1]%nat true) pid') /\
    (evs = [] \/ evs = [EvSetPid 17] \/ evs = [EvUnsetPid 17]).
Proof.
  apply (pid_op_frame (split_with [1]%nat true) (Subscribe 17 2)).
  - apply split_with_table_ok.
  - apply split_with_chains_ok. repeat constructor. intros [].
  - reflexivity.
  - vm_compute. reflexivity.
Defined.

Lemma pid_ops_balance_witness :
  exists s' evs,
    pid_ops upipe_ts_split_alloc
      [Subscribe 256 1; Subscribe 256 2; Unsubscribe 256 1] = Some (s', evs) /\
    chains_ok s' /\
    forall pid, 0 <= pid < MAX_PIDS ->
      Z.of_nat (count (is_set_pid pid) evs) -
      Z.of_nat (count (is_unset_pid pid) evs)
      = occupied s' pid - occupied upipe_ts_split_alloc pid.
Proof.
  apply (pid_ops_balance
           [Subscribe 256 1; Subscribe 256 2; Unsubscribe 256 1]
           upipe_ts_split_alloc alloc_table_ok alloc_flags_ok alloc_chains_ok).
  - repeat constructor.
  - vm_compute. reflexivity.
Defined.

(** Outputs 1 and 2 on PID 0x100; output 1 is removed, twice. *)
Lemma unsubscribe_idempotent_witness :
  exists s' evs,
    pid_op_step (split_with [1; 2]%nat true) (Unsubscribe 256 1)
      = Some (s', evs) /\
    chains_ok s' /\
    pid_op_step s' (Unsubscribe 256 1) = Some (s', []) /\
    (flags_ok (split_with [1; 2]%nat true) ->
     ~ In 1%nat (subscribers (split_with [1; 2]%nat true) 256) ->
     s' = split_with [1; 2]%nat true /\ evs = []).
Proof.
  apply (unsubscribe_idempotent (split_with [1; 2]%nat true) 256 1%nat).
  - apply split_with_table_ok.
  - apply split_with_chains_ok. repeat constructor; cbn; intuition discriminate.
  - reflexivity.
Defined.

Example unsubscribe_twice :
  option_map snd
    (pid_ops (split_with [1; 2]%nat true)
       [Unsubscribe 256 1; Unsubscribe 256 1; Unsubscribe 256 2;
        Unsubscribe 256 2])
  = Some [EvUnsetPid 256].
Proof. vm_compute. reflexivity. Qed.

Lemma split_with_flags_ok (l : ulist) (ok : bool) : flags_ok (split_with l ok).
Proof.
  intros pid p Hs. unfold pid_slot, split_with in Hs. cbn [pids] in Hs.
  destruct (Nat.eq_dec 256%nat (Z.to_nat pid)) as [E | Hne].
  - rewrite <- E, list_lookup_insert_eq in Hs.
    + injection Hs as <-. reflexivity.
    + rewrite alloc_table_ok. vm_compute. lia.
  - rewrite list_lookup_insert_ne in Hs by exact Hne.
    exact (alloc_flags_ok pid p Hs).
Qed.

Lemma set_flow_def_new_output_witness :
  exists r o' s' evs,
    upipe_ts_split_output_set_flow_def (new_output 7) (split_with [1]%nat true)
      true (flow_pid 256) = Some (r, o', s', evs) /\
    (r = true <->
     exists pid, uref_ts_flow_get_pid (flow_pid 256) = Some pid /\
                 pid < MAX_PIDS /\ true = true).
Proof.
  destruct (set_flow_def_new_output (new_output 7) (split_with [1]%nat true)
              true (flow_pid 256))
    as (r & o' & s' & evs & Hrun & Hr & _).
  - reflexivity.
  - apply split_with_table_ok.
  - apply split_with_flags_ok.
  - intros pid [= <-]. lia.
  - exists r, o', s', evs. split; assumption.
Defined.

Example set_flow_def_second_output :
  upipe_ts_split_output_set_flow_def (new_output 7) (split_with [1]%nat true)
    true (flow_pid 256)
  = Some (true, {| self := 7%nat; flow_def := Some (flow_pid 256) |},
          split_with [1; 7]%nat true, []).
Proof. vm_compute. reflexivity. Qed.

Lemma set_flow_def_registered_undefined_all_witness :
  upipe_ts_split_output_set_flow_def
    {| self := 7%nat; flow_def := Some (flow_pid 256) |}
    (split_with [1; 7]%nat true) true (flow_pid 257) = None.
Proof.
  apply (set_flow_def_registered_undefined_all
           {| self := 7%nat; flow_def := Some (flow_pid 256) |}
           (split_with [1; 7]%nat true) true (flow_pid 256) (flow_pid 257) 256);
    reflexivity.
Defined.

Example output_alloc_new :
  upipe_ts_split_output_alloc (Some 7%nat) = (Some (new_output 7), [EvReady 7]).
Proof. reflexivity. Qed.

Lemma subscribe_release_round_trip_witness :
  exists o' s',
    upipe_ts_split_output_set_flow_def (new_output 7) upipe_ts_split_alloc
      true (flow_pid 256) = Some (true, o', s', [EvSetPid 256]) /\
    upipe_ts_split_output_release o' s' true =
      Some (upipe_ts_split_alloc, [OfSplit (EvUnsetPid 256); EvDead 7]) /\
    upipe_ts_split_output_release o' s' false = Some (s', []).
Proof.
  apply (subscribe_release_round_trip (new_output 7) upipe_ts_split_alloc
           (flow_pid 256) 256).
  - reflexivity.
  - apply alloc_table_ok.
  - apply alloc_flags_ok.
  - reflexivity.
  - reflexivity.
  - vm_compute. tauto.
Defined.

Lemma subscribe_then_work_witness :
  let u := block (packet [0x47; 0x01; 0x00; 0x10]) in
  exists o' s' evs,
    upipe_ts_split_output_set_flow_def (new_output 7)
      (split_with [1; 2]%nat true) true (flow_pid 256)
      = Some (true, o', s', evs) /\
    upipe_ts_split_work s' (always true) u =
      Some [EvOutput 1 (Duplicate 0) u; EvOutput 2 (Duplicate 1) u;
            EvOutput 7 Original u].
Proof.
  intros u.
  apply (subscribe_then_work (new_output 7) (split_with [1; 2]%nat true)
           (flow_pid 256) (always true) u (packet [0x47; 0x01; 0x00; 0x10])).
  - reflexivity.
  - apply split_with_table_ok.
  - reflexivity.
  - reflexivity.
  - apply packet_bytes. repeat constructor; lia.
  - vm_compute. lia.
  - reflexivity.
Defined.

Lemma release_then_work_witness :
  exists s' evs,
    upipe_ts_split_output_release
      {| self := 2%nat; flow_def := Some (flow_pid 256) |}
      (split_with [1; 2; 3]%nat true) true = Some (s', evs) /\
    forall dup_ok u b evs' p u',
      ubuf u = Some b -> ts_get_pid b = 256 ->
      upipe_ts_split_work s' dup_ok u = Some evs' ->
      ~ In (EvOutput 2 p u') evs'.
Proof.
  apply (release_then_work
           {| self := 2%nat; flow_def := Some (flow_pid 256) |}
           (split_with [1; 2; 3]%nat true) (flow_pid 256) 256).
  - reflexivity.
  - reflexivity.
  - reflexivity.
  - apply split_with_table_ok.
Defined.

Example release_then_work_trace :
  let u := block (packet [0x47; 0x01; 0x00; 0x10]) in
  upipe_ts_split_work (split_with [1; 3]%nat true) (always true) u
  = Some [EvOutput 1 (Duplicate 0) u; EvOutput 3 Original u].
Proof. vm_compute. reflexivity. Qed.

End SplitMoreExamples.
